(** * Image-classification utilities: a shallow embedding of
      [deep_learning/image_classification/utils.py]

    Each Python function is embedded under its own name.  Tensors are a
    shape together with an indexing function, floats are exact rationals,
    the file system is a finite map from paths to JSON values, and the
    process-wide random sources are an explicit state record. *)

From stdpp Require Import gmap strings sorting.
From Stdlib Require Import List ZArith QArith Lia Bool Ascii.
Import ListNotations.

#[local] Close Scope Q_scope.
#[local] Open Scope nat_scope.

(** A Python [int] that is not negative, used as a float. *)
Definition Q_of_nat (n : nat) : Q := inject_Z (Z.of_nat n).

(** ** Tensors and channel layout *)

Module Tensors.

Section Tensor.
Context {A : Type}.

(** A tensor is its [shape] and the value found at each index; only
    indices inside the shape are ever read (see [get]). *)
Record Tensor : Type := mkTensor {
  shape : list nat;
  elem : list nat -> A
}.

(** [image.dim()] *)
Definition dim (t : Tensor) : nat := length (shape t).

(** [image.shape[d]], used only below the guard on [dim]. *)
Definition shape_at (t : Tensor) (d : nat) : nat := nth d (shape t) 0.

Fixpoint in_bounds (sh idx : list nat) : bool :=
  match sh, idx with
  | [], [] => true
  | s :: sh', i :: idx' => (i <? s) && in_bounds sh' idx'
  | _, _ => false
  end.

(** [image[i0, ..., in]]: [None] stands for Python's [IndexError]. *)
Definition get (t : Tensor) (idx : list nat) : option A :=
  if in_bounds (shape t) idx then Some (elem t idx) else None.

(** Position of axis [m] in the axis list [dims]. *)
Fixpoint index_of (m : nat) (dims : list nat) : nat :=
  match dims with
  | [] => 0
  | d :: ds => if d =? m then 0 else S (index_of m ds)
  end.

(** [image.permute(d0, d1, ...)] with [dims = [d0; d1; ...]]: axis [k] of
    the result is axis [dims[k]] of the input.  Every call below passes a
    permutation of [range(image.dim())], the only case in which torch does
    not raise. *)
Definition permute (dims : list nat) (t : Tensor) : Tensor :=
  {| shape := map (fun d => nth d (shape t) 0) dims;
     elem := fun idx =>
       elem t (map (fun m => nth (index_of m dims) idx 0)
                   (seq 0 (length dims))) |}.

Definition convert_to_channels_first (image : Tensor) : Tensor :=
  if dim image =? 4 then
    if shape_at image 1 =? 3 then image else permute [0; 3; 1; 2] image
  else if dim image =? 3 then
    if shape_at image 0 =? 3 then image else permute [2; 0; 1] image
  else image.

Definition convert_to_channels_last (image : Tensor) : Tensor :=
  if dim image =? 4 then
    if shape_at image 3 =? 3 then image else permute [0; 2; 3; 1] image
  else if dim image =? 3 then
    if shape_at image 2 =? 3 then image else permute [1; 2; 0] image
  else image.

(** Same shape and the same value at every index. *)
Definition tensor_eq (t1 t2 : Tensor) : Prop :=
  shape t1 = shape t2 /\ forall idx, get t1 idx = get t2 idx.

(** The shapes on which channels-first followed by channels-last gives
    the input back: writing the shape (a, b, c) or (n, a, b, c), either
    a = c = 3 (both conversions leave the tensor alone) or neither a nor
    b is 3 (both conversions permute). *)
Definition roundtrip_stable (t : Tensor) : bool :=
  match shape t with
  | [a; b; c] | [_; a; b; c] =>
      ((a =? 3) && (c =? 3)) || (negb (a =? 3) && negb (b =? 3))
  | _ => false
  end.

End Tensor.

Arguments Tensor A : clear implicits.

(** A channels-first 3 x 4 x 5 tensor whose entries record their own index. *)
Definition chw_3_4_5 : Tensor (list nat) :=
  {| shape := [3; 4; 5]; elem := fun idx => idx |}.

(** A channels-last 4 x 5 x 3 tensor whose entries record their own index. *)
Definition hwc_4_5_3 : Tensor (list nat) :=
  {| shape := [4; 5; 3]; elem := fun idx => idx |}.

(** A 2-D tensor. *)
Definition matrix_2_2 : Tensor (list nat) :=
  {| shape := [2; 2]; elem := fun idx => idx |}.

End Tensors.

(** ** The explanation transform and its inverse *)

Module Explain.
Import Tensors.
#[local] Open Scope Q_scope.

(** [timm.data.constants]: the reference statistics, as the docstring of
    [get_data_augmentation] prints them. *)
Definition IMAGENET_DEFAULT_MEAN : list Q := [0.485; 0.456; 0.406].
Definition IMAGENET_DEFAULT_STD : list Q := [0.229; 0.224; 0.225].

(** A transform maps an image to an image or raises ([None]). *)
Definition transform : Type := Tensor Q -> option (Tensor Q).

(** [transforms.Lambda(f)] *)
Definition Lambda (f : Tensor Q -> Tensor Q) : transform :=
  fun image => Some (f image).

(** [image * s] for a Python scalar [s] *)
Definition mul_scalar (image : Tensor Q) (s : Q) : Tensor Q :=
  {| shape := shape image; elem := fun idx => elem image idx * s |}.

(** [transforms.Normalize(mean, std)] on a tensor: the channel axis is the
    third from the end, [(tensor - mean[:, None, None]) / std[:, None, None]].
    It raises on fewer than three axes, on a zero in [std], and when the
    in-place broadcast fails, which for the three-element lists used here
    means a channel axis whose size is not the length of the lists. *)
Definition Normalize (mean std : list Q) : transform :=
  fun tensor =>
    let axis := (dim tensor - 3)%nat in
    if (dim tensor <? 3)%nat then None
    else if existsb (fun s => Qeq_bool s 0) std then None
    else if negb ((length mean =? shape_at tensor axis)%nat
                  && (length std =? shape_at tensor axis)%nat) then None
    else Some {| shape := shape tensor;
                 elem := fun idx =>
                   (elem tensor idx - nth (nth axis idx 0%nat) mean 0)
                   / nth (nth axis idx 0%nat) std 0 |}.

(** [transforms.Compose(ts)]: apply the transforms from left to right. *)
Fixpoint Compose (ts : list transform) : transform :=
  fun image =>
    match ts with
    | [] => Some image
    | t :: ts' =>
        match t image with
        | Some image' => Compose ts' image'
        | None => None
        end
    end.

Definition get_explain_data_aug : transform * transform :=
  let transform :=
    Compose [Lambda convert_to_channels_first;
             Lambda (fun image => mul_scalar image (1 / 255));
             Normalize IMAGENET_DEFAULT_MEAN IMAGENET_DEFAULT_STD;
             Lambda convert_to_channels_last] in
  let inv_transform :=
    Compose [Lambda convert_to_channels_first;
             Normalize
               (map (fun '(m, s) => -1 * m / s)
                    (combine IMAGENET_DEFAULT_MEAN IMAGENET_DEFAULT_STD))
               (map (fun s => 1 / s) IMAGENET_DEFAULT_STD);
             Lambda convert_to_channels_last] in
  (transform, inv_transform).

(** Same shape and equal rationals at every index inside the shape. *)
Definition tensor_Qeq (t1 t2 : Tensor Q) : Prop :=
  shape t1 = shape t2 /\
  forall idx, in_bounds (shape t1) idx = true -> elem t1 idx == elem t2 idx.

(** Channels-last shapes (a, b, 3) and (n, a, b, 3) on which the channel
    round trip is stable: a = 3 or b <> 3. *)
Definition explain_stable (x : Tensor Q) : bool :=
  match shape x with
  | [a; b; c] | [_; a; b; c] =>
      ((c =? 3) && ((a =? 3) || negb (b =? 3)))%nat
  | _ => false
  end.

(** A single white pixel, height 1, width 1, three channels. *)
Definition white_pixel : Tensor Q :=
  {| shape := [1; 1; 3]%nat; elem := fun _ => 255 |}.

End Explain.

(** ** JSON files *)

Module Json.
#[local] Open Scope string_scope.

(** What [json.load] returns.  A Python [dict] with string keys is a finite
    map; numbers are restricted to integers. *)
#[local] Unset Elimination Schemes.
Inductive json : Type :=
  | JNull
  | JBool (b : bool)
  | JNum (n : Z)
  | JStr (s : string)
  | JArr (l : list json)
  | JObj (d : gmap string json).
#[local] Set Elimination Schemes.

(** The files that exist: each one, named by the absolute path it is
    stored under, holds the JSON value that [json.dump] wrote and
    [json.load] reads back. *)
Abbreviation filesystem := (gmap string json).

Inductive exn : Type :=
  | FileNotFoundError
  | IsADirectoryError
  | PermissionError
  | AttributeError.

Inductive result (A : Type) : Type :=
  | Ok (a : A)
  | Raise (e : exn).
Arguments Ok {A} a.
Arguments Raise {A} e.

(** [run_ids[model_name]] with the [KeyError] turned into [None]. *)
Definition get_run_id (run_ids : gmap string string) (model_name : string)
  : option string :=
  match run_ids !! model_name with
  | Some run_id => Some run_id
  | None => None
  end.

Section Files.
(** What the operating system makes of a path string handed to [open]:
    the file it leads to, named by its absolute path, so that two
    spellings of one file agree; or the error it raises on the way there,
    [FileNotFoundError] for a directory that does not exist,
    [IsADirectoryError] for a path that is a directory, [PermissionError].
    None of the functions below creates a directory, so the answer is the
    same before and after them. *)
Variable locate : string -> result string.

(** [open(file_path, "w")] followed by [json.dump]: the file is created or
    replaced, unless the path cannot be opened. *)
Definition dump_to (data : json) (file_path : string) (fs : filesystem)
  : result filesystem :=
  match locate file_path with
  | Ok file => Ok (<[file := data]> fs)
  | Raise e => Raise e
  end.

Definition write_json_file (dict_obj : gmap string json) (file_path : string)
    (fs : filesystem) : result filesystem :=
  dump_to (JObj dict_obj) file_path fs.

(** [open(file_path, "r")] followed by [json.load]. *)
Definition load_json_file (file_path : string) (fs : filesystem)
  : result json :=
  match locate file_path with
  | Ok file =>
      match fs !! file with
      | Some data => Ok data
      | None => Raise FileNotFoundError
      end
  | Raise e => Raise e
  end.

(** [data.update(new_dict)]: the keys of [new_dict] win.  Only a [dict] has
    the method. *)
Definition update (data : json) (new_dict : gmap string json) : result json :=
  match data with
  | JObj d => Ok (JObj (new_dict ∪ d))
  | _ => Raise AttributeError
  end.

(** Only the load stands inside the [try]; the [open] for writing at the
    end raises whatever the operating system raises. *)
Definition append_dict_to_json_file (new_dict : gmap string json)
    (file_path : string) (fs : filesystem) : result filesystem :=
  let data :=
    match load_json_file file_path fs with
    | Ok data => Ok data
    | Raise FileNotFoundError => Ok (JObj ∅)
    | Raise e => Raise e
    end in
  match data with
  | Ok data =>
      match update data new_dict with
      | Ok data' => dump_to data' file_path fs
      | Raise e => Raise e
      end
  | Raise e => Raise e
  end.
End Files.

Fixpoint has_slash (s : string) : bool :=
  match s with
  | EmptyString => false
  | String c rest => Ascii.eqb c "/" || has_slash rest
  end.

(** A file name inside a directory: the empty name is no file, and [.]
    and [..] are directories. *)
Definition in_dir (dir name : string) : result string :=
  if String.eqb name "" then Raise FileNotFoundError
  else if String.eqb name "." || String.eqb name ".." then
    Raise IsADirectoryError
  else if has_slash name then Raise FileNotFoundError
  else Ok (dir ++ name).

(** A sample environment: the process runs in the directory [/work],
    which has no subdirectories, on a machine where no other directory
    exists.  A bare file name leads to the file of that name in [/work],
    a name preceded by [./] to the same file, and any other path with a
    slash goes through a directory that does not exist. *)
Definition work_dir (file_path : string) : result string :=
  match file_path with
  | String "." (String "/" name) => in_dir "/work/" name
  | _ => in_dir "/work/" file_path
  end.

End Json.

(** ** Seeding *)

Module Seeding.
#[local] Open Scope Z_scope.

(** The process-wide random sources: the seed last given to NumPy and to
    Python's [random], and what [torch.initial_seed()] returns. *)
Record RandomState : Type := mkRandomState {
  numpy_seed : Z;
  python_seed : Z;
  torch_initial_seed : Z
}.

(** [np.random.seed(seed)] raises ([None]) outside [0, 2^32). *)
Definition np_random_seed (seed : Z) (st : RandomState) : option RandomState :=
  if (0 <=? seed) && (seed <? 2 ^ 32)
  then Some {| numpy_seed := seed; python_seed := python_seed st;
               torch_initial_seed := torch_initial_seed st |}
  else None.

(** [random.seed(seed)] *)
Definition random_seed (seed : Z) (st : RandomState) : RandomState :=
  {| numpy_seed := numpy_seed st; python_seed := seed;
     torch_initial_seed := torch_initial_seed st |}.

(** Returns the function's result with the new state; the outer [None] is
    an exception raised by NumPy. *)
Definition set_seed_for_worker (worker_id : option Z) (st : RandomState)
  : option (option Z * RandomState) :=
  match worker_id with
  | Some worker_id =>
      let worker_seed := worker_id in
      match np_random_seed worker_seed st with
      | Some st1 => Some (Some worker_seed, random_seed worker_seed st1)
      | None => None
      end
  | None =>
      match np_random_seed (torch_initial_seed st mod 2 ^ 32) st with
      | Some st1 =>
          Some (None, random_seed (torch_initial_seed st1 mod 2 ^ 32) st1)
      | None => None
      end
  end.

(** [torch.manual_seed(seed)]; [set_seed_for_all] reaches it only after
    NumPy has accepted the seed, so with 0 <= seed < 2^32, and torch then
    reports the seed unchanged as its initial seed. *)
Definition torch_manual_seed (seed : Z) (st : RandomState) : RandomState :=
  {| numpy_seed := numpy_seed st; python_seed := python_seed st;
     torch_initial_seed := seed |}.

(** [None] is the exception NumPy raises on a seed it rejects; Python's
    [random] has been seeded by then, torch has not. *)
Definition set_seed_for_all (seed : Z) (st : RandomState)
  : option RandomState :=
  let st1 := random_seed seed st in
  match np_random_seed seed st1 with
  | Some st2 => Some (torch_manual_seed seed st2)
  | None => None
  end.

End Seeding.

(** ** Augmentation pipelines *)

Module Augment.
Import Explain.
#[local] Open Scope string_scope.

(** [torchvision.transforms.InterpolationMode] *)
Inductive InterpolationMode : Type :=
  NEAREST | BILINEAR | BICUBIC | BOX | HAMMING | LANCZOS.

(** The transform constructors this module calls, with their arguments. *)
Inductive Transform : Type :=
  | RandomResizedCrop (size : Z) (interpolation : InterpolationMode)
  | RandomHorizontalFlip (p : bool)
  | TrivialAugmentWide (num_magnitude_bins : Z)
      (interpolation : InterpolationMode)
  | AugMix (interpolation : InterpolationMode)
  | RandAugment (num_magnitude_bins : Z) (interpolation : InterpolationMode)
  | ToTensor
  | Normalize (mean std : list Q)
  | Resize (size : Z) (interpolation : InterpolationMode)
  | CenterCrop (size : Z).

Inductive Pipeline : Type := Compose (ts : list Transform).

(** The fields of [args] that the function reads.  [interpolation] is a
    member of the enumeration, on which the call
    [f.InterpolationMode(args.interpolation)] is the identity. *)
Record Args : Type := mkArgs {
  crop_size : Z;
  interpolation : InterpolationMode;
  hflip : bool;
  aug_type : string;
  mag_bins : Z;
  val_resize : Z
}.

Definition get_data_augmentation (args : Args) : list (string * Pipeline) :=
  let train_aug :=
    [RandomResizedCrop (crop_size args) (interpolation args);
     RandomHorizontalFlip (hflip args)] in
  let train_aug :=
    if String.eqb (aug_type args) "trivial" then
      (train_aug ++
         [TrivialAugmentWide (mag_bins args) (interpolation args)])%list
    else if String.eqb (aug_type args) "augmix" then
      (train_aug ++ [AugMix (interpolation args)])%list
    else if String.eqb (aug_type args) "rand" then
      (train_aug ++ [RandAugment (mag_bins args) (interpolation args)])%list
    else train_aug in
  let train_aug :=
    (train_aug ++
       [ToTensor; Normalize IMAGENET_DEFAULT_MEAN IMAGENET_DEFAULT_STD])%list in
  let train_transform := Compose train_aug in
  let val_transform :=
    Compose [Resize (val_resize args) (interpolation args);
             CenterCrop (crop_size args);
             ToTensor;
             Normalize IMAGENET_DEFAULT_MEAN IMAGENET_DEFAULT_STD] in
  [("train", train_transform); ("val", val_transform)].

(** [d[key]] on the returned dictionary. *)
Fixpoint lookup_key (key : string) (d : list (string * Pipeline))
  : option Pipeline :=
  match d with
  | [] => None
  | (k, v) :: d' => if String.eqb k key then Some v else lookup_key key d'
  end.

End Augment.

(** ** Optimizer and learning-rate schedule *)

Module Optim.
#[local] Open Scope string_scope.

(** The fields of [args] read by [get_optimizer] and [get_lr_scheduler]. *)
Record Args : Type := mkArgs {
  opt_name : string;
  lr : Q;
  wd : Q;
  sched_name : string;
  warmup_decay : Q;
  warmup_epochs : nat;
  step_size : nat;
  gamma : Q;
  epochs : nat;
  eta_min : Q
}.

(** The constructors of [torch.optim] and [torch.optim.lr_scheduler]
    check their arguments and raise [ValueError] on the ones they
    reject. *)
Inductive exn : Type := ValueError.

Inductive result (A : Type) : Type :=
  | Ok (a : A)
  | Raise (e : exn).
Arguments Ok {A} a.
Arguments Raise {A} e.

(** [x < y] on floats *)
Definition Qlt_bool (x y : Q) : bool := negb (Qle_bool y x).

Section Optimizers.
(** [nn.Parameter] *)
Context {P : Type}.

Inductive Optimizer : Type :=
  | SGD (params : list P) (lr weight_decay momentum : Q)
  | AdamW (params : list P) (lr weight_decay : Q).

Definition is_empty (params : list P) : bool :=
  match params with
  | [] => true
  | _ :: _ => false
  end.

(** [optim.SGD(params, lr=, weight_decay=, momentum=)]: a negative
    learning rate, momentum or weight decay and an empty parameter list
    are rejected. *)
Definition new_SGD (params : list P) (lr weight_decay momentum : Q)
  : result Optimizer :=
  if Qlt_bool lr 0 || Qlt_bool momentum 0 || Qlt_bool weight_decay 0
     || is_empty params
  then Raise ValueError
  else Ok (SGD params lr weight_decay momentum).

(** [optim.AdamW(params, lr=, weight_decay=)]: a negative learning rate or
    weight decay and an empty parameter list are rejected. *)
Definition new_AdamW (params : list P) (lr weight_decay : Q)
  : result Optimizer :=
  if Qlt_bool lr 0 || Qlt_bool weight_decay 0 || is_empty params
  then Raise ValueError
  else Ok (AdamW params lr weight_decay).

Definition get_optimizer (args : Args) (params : list P)
  : result (option Optimizer) :=
  if String.eqb (opt_name args) "sgd" then
    match new_SGD params (lr args) (wd args) 0.9%Q with
    | Ok optimizer => Ok (Some optimizer)
    | Raise e => Raise e
    end
  else if String.eqb (opt_name args) "adamw" then
    match new_AdamW params (lr args) (wd args) with
    | Ok optimizer => Ok (Some optimizer)
    | Raise e => Raise e
    end
  else Ok None.

(** The learning rate the optimizer was built with, which a scheduler
    records as its base rate. *)
Definition initial_lr (optimizer : Optimizer) : Q :=
  match optimizer with
  | SGD _ lr _ _ => lr
  | AdamW _ lr _ => lr
  end.

(** The constructor arguments of the three schedulers of
    [torch.optim.lr_scheduler] that the function builds. *)
Inductive Phase : Type :=
  | LinearLR (start_factor : Q) (total_iters : nat)
  | StepLR (step_size : nat) (gamma : Q)
  | CosineAnnealingLR (T_max : Z) (eta_min : Q).

(** [SequentialLR(optimizer, schedulers, milestones)] with its step
    counter. *)
Record SequentialLR : Type := mkSequentialLR {
  base_lr : Q;
  schedulers : list Phase;
  milestones : list nat;
  last_epoch : nat
}.

(** [LinearLR(optimizer, start_factor=, total_iters=)]: a start factor
    that is not in (0, 1] is rejected. *)
Definition new_LinearLR (start_factor : Q) (total_iters : nat)
  : result Phase :=
  if Qlt_bool 1 start_factor || Qle_bool start_factor 0
  then Raise ValueError
  else Ok (LinearLR start_factor total_iters).

(** The warmup phase is built before the name is looked at, so its
    [ValueError] comes first; [StepLR], [CosineAnnealingLR] and
    [SequentialLR] accept what they are given here. *)
Definition get_lr_scheduler (args : Args) (optimizer : Optimizer)
  : result (option SequentialLR) :=
  match new_LinearLR (warmup_decay args) (warmup_epochs args) with
  | Raise e => Raise e
  | Ok warmup_lr =>
      let scheduler :=
        if String.eqb (sched_name args) "step" then
          Some (StepLR (step_size args) (gamma args))
        else if String.eqb (sched_name args) "cosine" then
          Some (CosineAnnealingLR
                  (Z.of_nat (epochs args) - Z.of_nat (warmup_epochs args))
                  (eta_min args))
        else None in
      match scheduler with
      | None => Ok None
      | Some scheduler =>
          Ok (Some {| base_lr := initial_lr optimizer;
                      schedulers := [warmup_lr; scheduler];
                      milestones := [warmup_epochs args];
                      last_epoch := 0 |})
      end
  end.

Section Schedule.
(** The function x |-> cos(pi * x), which has no rational values to
    offer in general; only the cosine phase uses it. *)
Variable cos_pi : Q -> Q.

#[local] Open Scope Q_scope.

Fixpoint Qpow (q : Q) (n : nat) : Q :=
  match n with
  | O => 1
  | S n' => q * Qpow q n'
  end.

(** Modelled from the spec: the rate of one phase, [t] epochs after the
    phase began, which torch.optim.lr_scheduler (not part of this
    repository) computes.  Warmup starts at the [start_factor] fraction
    of the base rate and increases linearly to the full rate over
    [total_iters] epochs; step is a piecewise-constant decay by [gamma]
    every [step_size] epochs; cosine is annealed over [T_max] epochs
    down to [eta_min]. *)
Definition phase_lr (base : Q) (p : Phase) (t : nat) : Q :=
  match p with
  | LinearLR start_factor total_iters =>
      base * (start_factor
              + (1 - start_factor)
                * (Q_of_nat (Nat.min total_iters t) / Q_of_nat total_iters))
  | StepLR step_size gamma =>
      base * Qpow gamma (t / step_size)
  | CosineAnnealingLR T_max eta_min =>
      eta_min
      + (base - eta_min)
        * (1 + cos_pi (Q_of_nat t / inject_Z T_max)) / 2
  end.

(** Modelled from the spec: the phase in force is found by
    [bisect_right(milestones, epoch)], the number of milestones reached. *)
Definition bisect_right (milestones : list nat) (epoch : nat) : nat :=
  length (filter (fun m => m <=? epoch)%nat milestones).

(** Modelled from the spec: torch's [SequentialLR] chains the phases,
    each one starting from its own epoch 0 at the milestone before it;
    the rate is a function of the step counter and the milestones. *)
Definition get_last_lr (s : SequentialLR) : Q :=
  let idx := bisect_right (milestones s) (last_epoch s) in
  let start :=
    match idx with
    | O => O
    | S i => nth i (milestones s) O
    end in
  match nth_error (schedulers s) idx with
  | Some p => phase_lr (base_lr s) p (last_epoch s - start)
  | None => base_lr s
  end.

(** Modelled from the spec: [lr_scheduler.step()] advances the step
    counter, which only ever increases. *)
Definition step (s : SequentialLR) : SequentialLR :=
  {| base_lr := base_lr s; schedulers := schedulers s;
     milestones := milestones s; last_epoch := S (last_epoch s) |}.

(** Modelled from the spec: the rate in force at [epoch], read after that
    many calls of [step] on the scheduler as built. *)
Definition lr_at_epoch (s : SequentialLR) (epoch : nat) : Q :=
  get_last_lr (Nat.iter epoch step s).
End Schedule.
End Optimizers.

Arguments Optimizer P : clear implicits.
Arguments Phase : clear implicits.
Arguments SequentialLR : clear implicits.

(** The configuration of the scheduler example: SGD, five warmup epochs,
    twenty epochs in all. *)
Definition sgd_args : Args :=
  {| opt_name := "sgd"; lr := 0.01; wd := 0.0001; sched_name := "step";
     warmup_decay := 0.01; warmup_epochs := 5; step_size := 10;
     gamma := 0.1; epochs := 20; eta_min := 0 |}.

(** A configuration whose optimizer and scheduler names are not known. *)
Definition lion_args : Args :=
  {| opt_name := "lion"; lr := 0.01; wd := 0.0001; sched_name := "plateau";
     warmup_decay := 0.01; warmup_epochs := 5; step_size := 10;
     gamma := 0.1; epochs := 20; eta_min := 0 |}.

(** The same unknown names with a warmup that starts at factor 0. *)
Definition cold_args : Args :=
  {| opt_name := "lion"; lr := 0.01; wd := 0.0001; sched_name := "plateau";
     warmup_decay := 0; warmup_epochs := 5; step_size := 10;
     gamma := 0.1; epochs := 20; eta_min := 0 |}.

End Optim.

(** ** Class weights *)

Module ClassWeights.

Record Dataset : Type := mkDataset {
  targets : list nat;
  classes : list string
}.

Record DataLoader : Type := mkDataLoader { dataset : Dataset }.

(** A NumPy float: a finite value, or what a division by zero leaves. *)
Inductive float : Type :=
  | Finite (q : Q)
  | Inf
  | NaN.

(** [np.bincount(x)]: how often each of 0 .. max(x) occurs; empty for an
    empty [x]. *)
Definition bincount (x : list nat) : list nat :=
  match x with
  | [] => []
  | _ => map (fun i => count_occ Nat.eq_dec x i) (seq 0 (S (list_max x)))
  end.

(** [n / d] on non-negative integers, NumPy's true division. *)
Definition true_divide (n d : nat) : float :=
  if d =? 0 then (if n =? 0 then NaN else Inf)
  else Finite (Q_of_nat n / Q_of_nat d)%Q.

Definition get_class_weights (data_loader : DataLoader) : list float :=
  let targets := targets (dataset data_loader) in
  let class_counts := bincount targets in
  let class_weights :=
    map (fun count =>
           true_divide (length targets)
             (length (classes (dataset data_loader)) * count))
        class_counts in
  class_weights.

(** Equality of weights up to the representation of the rational. *)
Definition float_eq (x y : float) : Prop :=
  match x, y with
  | Finite p, Finite q => (p == q)%Q
  | Inf, Inf => True
  | NaN, NaN => True
  | _, _ => False
  end.

(** Eighty samples of class 0 followed by twenty of class 1. *)
Definition loader_80_20 : DataLoader :=
  {| dataset := {| targets := repeat 0 80 ++ repeat 1 20;
                   classes := ["cat"; "dog"]%string |} |}.

End ClassWeights.

(** ** Layout predicates used to state what the conversions do *)

Module Layout.
Import Tensors.

(** Some axis that the conversions inspect has size 3: axis 0 or 2 of a
    3-D tensor, axis 1 or 3 of a 4-D tensor. *)
Definition has_channel_axis {A : Type} (t : Tensor A) : bool :=
  match shape t with
  | [a; _; c] | [_; a; _; c] => (a =? 3) || (c =? 3)
  | _ => false
  end.

(** The shapes on which channels-last followed by channels-first gives the
    input back: writing the shape (a, b, c) or (n, a, b, c), either
    a = c = 3 or neither b nor c is 3. *)
Definition reverse_roundtrip_stable {A : Type} (t : Tensor A) : bool :=
  match shape t with
  | [a; b; c] | [_; a; b; c] =>
      ((a =? 3) && (c =? 3)) || (negb (b =? 3) && negb (c =? 3))
  | _ => false
  end.

(** A 2 x 4 x 5 x 3 batch whose entries record their own index. *)
Definition nhwc_2_4_5_3 : Tensor (list nat) :=
  {| shape := [2; 4; 5; 3]; elem := fun idx => idx |}.

(** A 2 x 3 x 4 x 5 batch whose entries record their own index. *)
Definition nchw_2_3_4_5 : Tensor (list nat) :=
  {| shape := [2; 3; 4; 5]; elem := fun idx => idx |}.

End Layout.

(** ** Reference values for the explanation transforms *)

Module Pipeline.
Import Tensors Explain.
#[local] Open Scope Q_scope.

(** A channels-last image or batch, shape (h, w, 3) or (n, h, w, 3), whose
    height and width are not 3. *)
Definition standard_image (x : Tensor Q) : bool :=
  match shape x with
  | [h; w; c] | [_; h; w; c] =>
      ((c =? 3) && negb (h =? 3) && negb (w =? 3))%nat
  | _ => false
  end.

(** The channel of an index into a channels-last tensor: its last
    component. *)
Definition channel_of (x : Tensor Q) (idx : list nat) : nat :=
  nth (dim x - 1) idx 0%nat.

(** Entry by entry, [(x / 255 - mean[c]) / std[c]]. *)
Definition normalized (x : Tensor Q) : Tensor Q :=
  {| shape := shape x;
     elem := fun idx =>
       (elem x idx * (1 / 255)
        - nth (channel_of x idx) IMAGENET_DEFAULT_MEAN 0)
       / nth (channel_of x idx) IMAGENET_DEFAULT_STD 0 |}.

(** Entry by entry, [y * std[c] + mean[c]]. *)
Definition denormalized (y : Tensor Q) : Tensor Q :=
  {| shape := shape y;
     elem := fun idx =>
       elem y idx * nth (channel_of y idx) IMAGENET_DEFAULT_STD 0
       + nth (channel_of y idx) IMAGENET_DEFAULT_MEAN 0 |}.

(** A 2 x 2 image with three channels, every entry 51. *)
Definition grey_2_2 : Tensor Q :=
  {| shape := [2; 2; 3]%nat; elem := fun _ => 51 |}.

(** A 2 x 2 single-channel image. *)
Definition mono_2_2 : Tensor Q :=
  {| shape := [2; 2; 1]%nat; elem := fun _ => 51 |}.

End Pipeline.

(** ** Reading back what the factories built *)

Module Views.
Import Optim ClassWeights.

(** [optimizer.param_groups[0]["params"]] *)
Definition params_of {P : Type} (optimizer : Optimizer P) : list P :=
  match optimizer with
  | SGD params _ _ _ => params
  | AdamW params _ _ => params
  end.

(** [optimizer.param_groups[0]["weight_decay"]] *)
Definition weight_decay_of {P : Type} (optimizer : Optimizer P) : Q :=
  match optimizer with
  | SGD _ _ weight_decay _ => weight_decay
  | AdamW _ _ weight_decay => weight_decay
  end.

(** Three classes, two samples each, in no particular order. *)
Definition loader_balanced : DataLoader :=
  {| dataset := {| targets := [2; 0; 1; 1; 0; 2];
                   classes := ["ant"; "bee"; "cat"]%string |} |}.

(** Three class names, but no sample of class 1 and none of class 3. *)
Definition loader_gap : DataLoader :=
  {| dataset := {| targets := [0; 2; 2; 0];
                   classes := ["ant"; "bee"; "cat"; "dog"]%string |} |}.

End Views.

(** ** Paths, class discovery and the image sorter *)

Module Paths.
#[local] Open Scope string_scope.

Definition is_sep (c : ascii) : bool := Ascii.eqb c "/".

(** [b.startswith("/")] *)
Definition starts_with_sep (b : string) : bool :=
  match b with
  | String c _ => is_sep c
  | EmptyString => false
  end.

(** [path.endswith("/")] *)
Fixpoint ends_with_sep (path : string) : bool :=
  match path with
  | EmptyString => false
  | String c EmptyString => is_sep c
  | String _ rest => ends_with_sep rest
  end.

(** [os.path.join(a, b)] of [posixpath]: an absolute second component
    replaces the first one, otherwise the two are joined by one slash. *)
Definition os_path_join (a b : string) : string :=
  if starts_with_sep b then b
  else if String.eqb a "" || ends_with_sep a then a ++ b
  else a ++ "/" ++ b.

Fixpoint has_sep (p : string) : bool :=
  match p with
  | EmptyString => false
  | String c rest => is_sep c || has_sep rest
  end.

(** [os.path.basename(p)]: what follows the last slash. *)
Fixpoint basename (p : string) : string :=
  match p with
  | EmptyString => EmptyString
  | String c rest =>
      if has_sep rest then basename rest
      else if is_sep c then rest
      else p
  end.

(** [s.split(".")[0]]: what precedes the first dot. *)
Fixpoint before_dot (s : string) : string :=
  match s with
  | EmptyString => EmptyString
  | String c rest =>
      if Ascii.eqb c "." then EmptyString else String c (before_dot rest)
  end.

(** A character of the class [A-Za-z]. *)
Definition is_letter (c : ascii) : bool :=
  let n := nat_of_ascii c in
  (((65 <=? n) && (n <=? 90)) || ((97 <=? n) && (n <=? 122)))%nat.

(** [re.sub(r'[^A-Za-z]+', '', s)]: every run of other characters is
    deleted, which leaves the letters. *)
Fixpoint letters_only (s : string) : string :=
  match s with
  | EmptyString => EmptyString
  | String c rest =>
      if is_letter c then String c (letters_only rest) else letters_only rest
  end.

(** Every character is of the class [A-Za-z]. *)
Fixpoint all_letters (s : string) : bool :=
  match s with
  | EmptyString => true
  | String c rest => is_letter c && all_letters rest
  end.

(** [needle in haystack] on strings. *)
Fixpoint contains (needle haystack : string) : bool :=
  String.prefix needle haystack
  || match haystack with
     | EmptyString => false
     | String _ rest => contains needle rest
     end.

(** The order of Python's string comparison. *)
Definition string_le (a b : string) : Prop := String.leb a b = true.

#[export] Instance string_le_dec (a b : string) : Decision (string_le a b).
Proof. unfold string_le. apply _. Defined.

(** [l.sort()] on strings: the sorted rearrangement of [l]. *)
Definition sort (l : list string) : list string := merge_sort string_le l.

Section Listing.
(** [glob(pattern)]: the paths the file system has for a pattern, in the
    order the system lists them. *)
Variable glob : string -> list string.

Definition get_classes (dataset_dir : string) : list string :=
  let class_dirs := glob (os_path_join dataset_dir "train/*") in
  let classes := map basename class_dirs in
  sort classes.

Record CreateImgSubclasses : Type := mkCreateImgSubclasses {
  img_src : string;
  img_dest : string
}.

(** The class name the loop derives from one listed file. *)
Definition class_name_of (file : string) : string :=
  let file_name := before_dot (basename file) in
  letters_only file_name.

Definition get_image_classes (self : CreateImgSubclasses) : list string :=
  let ls := glob (os_path_join (img_src self) "/*") in
  fold_left
    (fun file_set file =>
       let cls_name := class_name_of file in
       if existsb (String.eqb cls_name) file_set then file_set
       else (file_set ++ [cls_name])%list)
    ls [].

(** The inner loop with its [break]: the first class name found in the
    path. *)
Fixpoint first_match (class_names : list string) (file : string)
  : option string :=
  match class_names with
  | [] => None
  | dir_name :: rest =>
      if contains dir_name file then Some dir_name else first_match rest file
  end.

(** The calls of [shutil.copy(file, destination)] that the loops make, in
    order, as long as none of them raises. *)
Definition copy_img_to_dirs (self : CreateImgSubclasses)
  : list (string * string) :=
  let class_names := get_image_classes self in
  flat_map
    (fun file =>
       match first_match class_names file with
       | Some dir_name => [(file, os_path_join (img_dest self) dir_name)]
       | None => []
       end)
    (glob (os_path_join (img_src self) "/*")).
End Listing.

(** A listing of the root directory, whatever the pattern. *)
Definition root_listing (pattern : string) : list string :=
  if String.eqb pattern "/*"
  then ["/cat.1.jpg"; "/dog_7.png"; "/cat.2.jpg"; "/2024"]
  else [].

(** A dataset with two class folders, listed in reverse. *)
Definition dataset_listing (pattern : string) : list string :=
  if String.eqb pattern "data/train/*"
  then ["data/train/dog"; "data/train/cat"]
  else [].

End Paths.

(** ** Models: freezing and the replacement of the head *)

Module Nn.
#[local] Open Scope string_scope.

(** An [nn.Parameter]: the shape of its tensor and whether it is
    trained. *)
Record Param : Type := mkParam {
  param_shape : list nat;
  requires_grad : bool
}.

(** An [nn.Module]: its class, the attributes [in_features] and [p] where
    the class has them, its own parameters and its named submodules, both
    in registration order. *)
#[local] Unset Elimination Schemes.
Inductive Module : Type :=
  Node (cls : string) (in_features : option nat) (p : option Q)
       (params : list Param) (modules : list (string * Module)).
#[local] Set Elimination Schemes.

(** What the zoo and the constructors raise: the zoo's error for a name
    it does not know or a download that fails, [AttributeError] for a
    missing attribute, [ValueError] for a rejected argument. *)
Inductive exn : Type :=
  | UnknownModel
  | RuntimeError
  | AttributeError
  | ValueError.

Inductive result (A : Type) : Type :=
  | Ok (a : A)
  | Raise (e : exn).
Arguments Ok {A} a.
Arguments Raise {A} e.

(** [model.parameters()]: the module's own parameters, then those of its
    submodules. *)
Fixpoint parameters (m : Module) : list Param :=
  match m with
  | Node _ _ _ ps ms => ps ++ flat_map (fun nc => parameters (snd nc)) ms
  end.

Definition freeze_param (param : Param) : Param :=
  {| param_shape := param_shape param; requires_grad := false |}.

(** The loop [param.requires_grad = False] over [model.parameters()],
    which changes the parameters where they are. *)
Fixpoint freeze_params (m : Module) : Module :=
  match m with
  | Node c i p ps ms =>
      Node c i p (map freeze_param ps)
        (map (fun nc => (fst nc, freeze_params (snd nc))) ms)
  end.

Definition get_trainable_params (model : Module) : list Param :=
  filter requires_grad (parameters model).

(** [nn.Linear(in_features, out_features, bias=True)], freshly built. *)
Definition Linear (in_features out_features : nat) : Module :=
  Node "Linear" (Some in_features) None
    [ {| param_shape := [out_features; in_features]; requires_grad := true |};
      {| param_shape := [out_features]; requires_grad := true |} ]
    [].

(** [nn.Dropout(p=rate)], which raises [ValueError] for a rate outside
    [0, 1]. *)
Definition Dropout (rate : Q) : result Module :=
  if Qle_bool 0 rate && Qle_bool rate 1
  then Ok (Node "Dropout" None (Some rate) [] [])
  else Raise ValueError.

(** [nn.Sequential(m0, m1, ...)]: the submodules are named by position. *)
Definition Sequential (layers : list (string * Module)) : Module :=
  Node "Sequential" None None [] layers.

(** The dropout layer is built first, so its [ValueError] comes before
    anything else. *)
Definition create_linear_head (num_ftrs num_classes : nat) (dropout : Q)
  : result Module :=
  match Dropout dropout with
  | Raise e => Raise e
  | Ok drop =>
      Ok (Sequential [("0", drop); ("1", Linear num_ftrs num_classes)])
  end.

(** [module.in_features], if the attribute exists. *)
Definition in_features_of (m : Module) : option nat :=
  match m with
  | Node _ i _ _ _ => i
  end.

Fixpoint lookup_module (name : string) (ms : list (string * Module))
  : option Module :=
  match ms with
  | [] => None
  | (n, c) :: rest => if String.eqb n name then Some c else lookup_module name rest
  end.

(** [getattr(m, name)] for a submodule; [None] is the [AttributeError]. *)
Definition getattr (m : Module) (name : string) : option Module :=
  match m with
  | Node _ _ _ _ ms => lookup_module name ms
  end.

(** [hasattr(m, name)] *)
Definition hasattr (m : Module) (name : string) : bool :=
  match getattr m name with
  | Some _ => true
  | None => false
  end.

Fixpoint replace_module (name : string) (v : Module)
    (ms : list (string * Module)) : list (string * Module) :=
  match ms with
  | [] => [(name, v)]
  | (n, c) :: rest =>
      if String.eqb n name then (n, v) :: rest
      else (n, c) :: replace_module name v rest
  end.

(** [m.name = v] for a module [v]: an existing submodule of that name is
    replaced where it stands, a new name is registered last. *)
Definition setattr (m : Module) (name : string) (v : Module) : Module :=
  match m with
  | Node c i p ps ms => Node c i p ps (replace_module name v ms)
  end.

Section Zoo.
(** [timm.create_model(model_name, pretrained=True, ...)]: the model zoo,
    which raises for a name it does not know. *)
Variable create_model : string -> result Module.

(** The conversion to the channels-last memory format at the end does not
    touch what is recorded here. *)
Definition get_model (model_name : string) (num_classes : nat) (dropout : Q)
  : result Module :=
  match create_model model_name with
  | Raise e => Raise e
  | Ok model =>
      let model := freeze_params model in
      (* the assignment to [head_dist], where the model has one *)
      let set_head_dist (model : Module) (num_ftrs : nat) : result Module :=
        if hasattr model "head_dist" then
          match create_linear_head num_ftrs num_classes dropout with
          | Raise e => Raise e
          | Ok new_head => Ok (setattr model "head_dist" new_head)
          end
        else Ok model in
      match getattr model "head" with
      | None => Raise AttributeError
      | Some head =>
          match in_features_of head with
          | Some num_ftrs =>
              match create_linear_head num_ftrs num_classes dropout with
              | Raise e => Raise e
              | Ok new_head =>
                  let model := setattr model "head" new_head in
                  set_head_dist model num_ftrs
              end
          | None =>
              match getattr head "fc" with
              | None => Raise AttributeError
              | Some fc =>
                  match in_features_of fc with
                  | None => Raise AttributeError
                  | Some num_ftrs =>
                      match
                        create_linear_head num_ftrs num_classes dropout
                      with
                      | Raise e => Raise e
                      | Ok new_head =>
                          let head := setattr head "fc" new_head in
                          let model := setattr model "head" head in
                          set_head_dist model num_ftrs
                      end
                  end
              end
          end
      end
  end.
End Zoo.

(** The two head layouts the function can handle: a head that has
    [in_features] itself, or a head whose submodule [fc] has it. *)
Definition supported_layout (model : Module) : bool :=
  match getattr model "head" with
  | None => false
  | Some head =>
      match in_features_of head with
      | Some _ => true
      | None =>
          match getattr head "fc" with
          | None => false
          | Some fc =>
              match in_features_of fc with
              | Some _ => true
              | None => false
              end
          end
      end
  end.

(** A small backbone whose head is a linear layer over 8 features, with a
    distillation head beside it. *)
Definition tiny_backbone : Module :=
  Node "VisionTransformer" None None
    [ {| param_shape := [1; 8]; requires_grad := true |} ]
    [("blocks", Linear 8 8); ("head", Linear 8 1000);
     ("head_dist", Linear 8 1000)].

(** A backbone whose head is a wrapper around the linear layer [fc]. *)
Definition wrapped_backbone : Module :=
  Node "RegNet" None None []
    [("stem", Linear 3 8);
     ("head", Node "ClassifierHead" None None [] [("fc", Linear 8 1000)])].

(** A zoo with the two models above. *)
Definition tiny_zoo (model_name : string) : result Module :=
  if String.eqb model_name "tiny" then Ok tiny_backbone
  else if String.eqb model_name "wrapped" then Ok wrapped_backbone
  else Raise UnknownModel.

End Nn.

(** * Properties *)

Module TensorsProps.
Import Tensors.

Ltac resolve_eqb3 :=
  repeat match goal with
    | H : ?x <> 3 |- context [?x =? 3] =>
        rewrite (proj2 (Nat.eqb_neq x 3) H); cbn -[in_bounds]
    end.

Section Facts.
Context {A : Type}.
Implicit Types t : Tensor A.

Lemma tensor_eq_refl t : tensor_eq t t.
Proof. split; reflexivity. Qed.

(** The two 3-D permutations undo each other. *)
Lemma permute_3d_roundtrip t :
  dim t = 3 -> tensor_eq (permute [1; 2; 0] (permute [2; 0; 1] t)) t.
Proof.
  unfold dim. destruct t as [sh f]; simpl.
  destruct sh as [|a [|b [|c [|? ?]]]]; try discriminate. intros _.
  split; [reflexivity|]. intros idx. unfold get; simpl.
  destruct idx as [|i [|j [|k [|? ?]]]]; simpl; try reflexivity;
    try (rewrite !andb_false_r; reflexivity).
Qed.

(** The two 4-D permutations undo each other. *)
Lemma permute_4d_roundtrip t :
  dim t = 4 -> tensor_eq (permute [0; 2; 3; 1] (permute [0; 3; 1; 2] t)) t.
Proof.
  unfold dim. destruct t as [sh f]; simpl.
  destruct sh as [|n [|a [|b [|c [|? ?]]]]]; try discriminate. intros _.
  split; [reflexivity|]. intros idx. unfold get; simpl.
  destruct idx as [|i [|j [|k [|l [|? ?]]]]]; simpl; try reflexivity;
    try (rewrite !andb_false_r; reflexivity).
Qed.

Lemma in_bounds_3d (a b c : nat) (idx : list nat) :
  in_bounds [a; b; c] idx = true ->
  exists i j k, idx = [i; j; k] /\ i < a /\ j < b /\ k < c.
Proof.
  destruct idx as [|i [|j [|k [|? ?]]]]; simpl;
    rewrite ?andb_false_r; try discriminate.
  rewrite andb_true_r. intros H.
  apply andb_prop in H as [Hi H]. apply andb_prop in H as [Hj Hk].
  apply Nat.ltb_lt in Hi, Hj, Hk. now exists i, j, k.
Qed.

Lemma in_bounds_4d (n a b c : nat) (idx : list nat) :
  in_bounds [n; a; b; c] idx = true ->
  exists m i j k, idx = [m; i; j; k] /\ m < n /\ i < a /\ j < b /\ k < c.
Proof.
  destruct idx as [|m [|i [|j [|k [|? ?]]]]]; simpl;
    rewrite ?andb_false_r; try discriminate.
  rewrite andb_true_r. intros H.
  apply andb_prop in H as [Hm H]. apply andb_prop in H as [Hi H].
  apply andb_prop in H as [Hj Hk].
  apply Nat.ltb_lt in Hm, Hi, Hj, Hk. now exists m, i, j, k.
Qed.

(** C9: a tensor that is neither 3-D nor 4-D (2-D, 5-D, ...) is returned
    as it is by both conversions: no permutation and no error. *)
Theorem convert_other_dims_unchanged t :
  dim t <> 3 -> dim t <> 4 ->
  convert_to_channels_first t = t /\ convert_to_channels_last t = t.
Proof.
  intros H3 H4. unfold convert_to_channels_first, convert_to_channels_last.
  apply Nat.eqb_neq in H3, H4. rewrite H3, H4. split; reflexivity.
Qed.

Lemma stable_3d_cases (a b c : nat) (f : list nat -> A) :
  let t := {| shape := [a; b; c]; elem := f |} in
  (tensor_eq (convert_to_channels_last (convert_to_channels_first t)) t
   <-> roundtrip_stable t = true) /\
  (roundtrip_stable t = false ->
   shape (convert_to_channels_last (convert_to_channels_first t))
   <> shape t).
Proof.
  intros t. subst t.
  unfold convert_to_channels_first, convert_to_channels_last,
    roundtrip_stable, dim, shape_at; simpl.
  destruct (Nat.eqb_spec a 3) as [Ha|Ha], (Nat.eqb_spec b 3) as [Hb|Hb],
    (Nat.eqb_spec c 3) as [Hc|Hc]; subst; simpl; resolve_eqb3.
  all: (split;
        [| intros Hst; try discriminate Hst; intros Hs; simpl in Hs;
           injection Hs; intros; subst; congruence]).
  all: try (split; [reflexivity | intros _; apply tensor_eq_refl]).
  all: try (split; [intros [Hs _]; simpl in Hs; injection Hs; intros;
                    subst; congruence | discriminate]).
  all: split; [reflexivity | intros _; now apply permute_3d_roundtrip].
Qed.

Lemma stable_4d_cases (n a b c : nat) (f : list nat -> A) :
  let t := {| shape := [n; a; b; c]; elem := f |} in
  (tensor_eq (convert_to_channels_last (convert_to_channels_first t)) t
   <-> roundtrip_stable t = true) /\
  (roundtrip_stable t = false ->
   shape (convert_to_channels_last (convert_to_channels_first t))
   <> shape t).
Proof.
  intros t. subst t.
  unfold convert_to_channels_first, convert_to_channels_last,
    roundtrip_stable, dim, shape_at; simpl.
  destruct (Nat.eqb_spec a 3) as [Ha|Ha], (Nat.eqb_spec b 3) as [Hb|Hb],
    (Nat.eqb_spec c 3) as [Hc|Hc]; subst; simpl; resolve_eqb3.
  all: (split;
        [| intros Hst; try discriminate Hst; intros Hs; simpl in Hs;
           injection Hs; intros; subst; congruence]).
  all: try (split; [reflexivity | intros _; apply tensor_eq_refl]).
  all: try (split; [intros [Hs _]; simpl in Hs; injection Hs; intros;
                    subst; congruence | discriminate]).
  all: split; [reflexivity | intros _; now apply permute_4d_roundtrip].
Qed.

(** C1 (amended): for a 3-D tensor of shape (a, b, c) or a 4-D tensor of
    shape (n, a, b, c), channels-first followed by channels-last gives
    back the same shape and the same values exactly when a = c = 3 or
    neither a nor b is 3; on every other 3-D or 4-D shape the result has
    a different shape. *)
Theorem channels_roundtrip_iff t :
  dim t = 3 \/ dim t = 4 ->
  (tensor_eq (convert_to_channels_last (convert_to_channels_first t)) t
   <-> roundtrip_stable t = true) /\
  (roundtrip_stable t = false ->
   shape (convert_to_channels_last (convert_to_channels_first t))
   <> shape t).
Proof.
  destruct t as [sh f]. unfold dim; simpl. intros [H|H].
  - destruct sh as [|a [|b [|c [|? ?]]]]; try discriminate.
    apply stable_3d_cases.
  - destruct sh as [|n [|a [|b [|c [|? ?]]]]]; try discriminate.
    apply stable_4d_cases.
Qed.

End Facts.

Lemma convert_other_dims_unchanged_witness :
  dim matrix_2_2 <> 3 /\ dim matrix_2_2 <> 4 /\
  convert_to_channels_first matrix_2_2 = matrix_2_2 /\
  convert_to_channels_last matrix_2_2 = matrix_2_2.
Proof.
  assert (H3 : dim matrix_2_2 <> 3) by (vm_compute; lia).
  assert (H4 : dim matrix_2_2 <> 4) by (vm_compute; lia).
  exact (conj H3 (conj H4 (convert_other_dims_unchanged matrix_2_2 H3 H4))).
Defined.

(** C1 as stated fails on a channels-first input: the 3 x 4 x 5 tensor is
    left alone by [convert_to_channels_first] and permuted to 4 x 5 x 3 by
    [convert_to_channels_last]. *)
Lemma channels_roundtrip_changes_chw :
  dim chw_3_4_5 = 3 /\
  shape (convert_to_channels_last (convert_to_channels_first chw_3_4_5))
    = [4; 5; 3] /\
  ~ tensor_eq (convert_to_channels_last (convert_to_channels_first chw_3_4_5))
      chw_3_4_5.
Proof.
  split; [reflexivity|]. split; [reflexivity|].
  intros [Hs _]. vm_compute in Hs. discriminate.
Qed.

Lemma channels_roundtrip_iff_witness :
  (dim hwc_4_5_3 = 3 \/ dim hwc_4_5_3 = 4) /\
  (dim chw_3_4_5 = 3 \/ dim chw_3_4_5 = 4) /\
  (tensor_eq (convert_to_channels_last (convert_to_channels_first hwc_4_5_3))
     hwc_4_5_3 <-> roundtrip_stable hwc_4_5_3 = true) /\
  shape (convert_to_channels_last (convert_to_channels_first chw_3_4_5))
  <> shape chw_3_4_5.
Proof.
  assert (H : dim hwc_4_5_3 = 3 \/ dim hwc_4_5_3 = 4) by (left; reflexivity).
  assert (H' : dim chw_3_4_5 = 3 \/ dim chw_3_4_5 = 4) by (left; reflexivity).
  exact (conj H (conj H'
    (conj (proj1 (channels_roundtrip_iff hwc_4_5_3 H))
          (proj2 (channels_roundtrip_iff chw_3_4_5 H') eq_refl)))).
Defined.

End TensorsProps.

Module ExplainProps.
Import Tensors Explain TensorsProps.
#[local] Open Scope Q_scope.

(** The algebra behind the inverse: normalizing with mean [-mu / s] and
    deviation [1 / s] undoes normalizing with mean [mu] and deviation [s]. *)
Lemma denormalize_normalize (v mu s : Q) :
  ~ s == 0 -> ((v - mu) / s - (-1 * mu / s)) / (1 / s) == v.
Proof. intros Hs. field. exact Hs. Qed.

#[local] Opaque Qmult Qplus Qminus Qdiv Qopp Qinv.

Ltac layout_step :=
  repeat (unfold convert_to_channels_first, convert_to_channels_last,
            dim, shape_at; cbn -[in_bounds]; resolve_eqb3).

Ltac channel_cases k :=
  destruct k as [|[|[|k]]]; [cbn; field .. | lia].

Lemma explain_3d (a b : nat) (f : list nat -> Q) :
  (a = 3 \/ b <> 3)%nat ->
  let x := {| shape := [a; b; 3%nat]; elem := f |} in
  exists y r, fst get_explain_data_aug x = Some y /\
              snd get_explain_data_aug y = Some r /\
              tensor_Qeq r (mul_scalar x (1 / 255)).
Proof.
  intros H x. subst x.
  destruct (Nat.eqb_spec a 3) as [Ha|Ha].
  - subst a. eexists. eexists. split; [reflexivity|]. split; [reflexivity|].
    split; [reflexivity|]. intros idx Hb.
    apply in_bounds_3d in Hb as (i & j & k & -> & Hi & Hj & Hk).
    channel_cases i.
  - destruct H as [H|H]; [contradiction|].
    unfold get_explain_data_aug. cbn. layout_step.
    eexists. eexists. split; [reflexivity|]. layout_step.
    split; [reflexivity|]. unfold tensor_Qeq. layout_step.
    split; [reflexivity|]. intros idx Hb.
    apply in_bounds_3d in Hb as (i & j & k & -> & Hi & Hj & Hk).
    channel_cases k.
Qed.

Lemma explain_4d (n a b : nat) (f : list nat -> Q) :
  (a = 3 \/ b <> 3)%nat ->
  let x := {| shape := [n; a; b; 3%nat]; elem := f |} in
  exists y r, fst get_explain_data_aug x = Some y /\
              snd get_explain_data_aug y = Some r /\
              tensor_Qeq r (mul_scalar x (1 / 255)).
Proof.
  intros H x. subst x.
  destruct (Nat.eqb_spec a 3) as [Ha|Ha].
  - subst a. eexists. eexists. split; [reflexivity|]. split; [reflexivity|].
    split; [reflexivity|]. intros idx Hb.
    apply in_bounds_4d in Hb as (m & i & j & k & -> & Hm & Hi & Hj & Hk).
    channel_cases i.
  - destruct H as [H|H]; [contradiction|].
    unfold get_explain_data_aug. cbn. layout_step.
    eexists. eexists. split; [reflexivity|]. layout_step.
    split; [reflexivity|]. unfold tensor_Qeq. layout_step.
    split; [reflexivity|]. intros idx Hb.
    apply in_bounds_4d in Hb as (m & i & j & k & -> & Hm & Hi & Hj & Hk).
    channel_cases k.
Qed.

(** C2 (amended): in exact arithmetic, for every 3-D or 4-D tensor x whose
    last axis has size 3 and on which the channel round trip is stable
    (shape (a, b, 3) or (n, a, b, 3) with a = 3 or b <> 3), the forward
    transform of [get_explain_data_aug] followed by its inverse succeeds
    and gives a tensor of x's shape whose every entry is the entry of x
    times 1/255: the normalization and the channel order are undone, the
    1/255 rescale is not. *)
Theorem explain_inverse_keeps_rescale (x : Tensor Q) :
  explain_stable x = true ->
  exists y r, fst get_explain_data_aug x = Some y /\
              snd get_explain_data_aug y = Some r /\
              tensor_Qeq r (mul_scalar x (1 / 255)).
Proof.
  destruct x as [sh f]. unfold explain_stable; simpl.
  destruct sh as [|n [|a [|b [|c [|? ?]]]]]; try discriminate; intros H;
    apply andb_prop in H as [Hc H]; apply Nat.eqb_eq in Hc; subst;
    apply orb_prop in H.
  - apply explain_3d.
    destruct H as [H|H]; [left; now apply Nat.eqb_eq in H|right].
    apply negb_true_iff in H. now apply Nat.eqb_neq in H.
  - apply explain_4d.
    destruct H as [H|H]; [left; now apply Nat.eqb_eq in H|right].
    apply negb_true_iff in H. now apply Nat.eqb_neq in H.
Qed.

Lemma explain_inverse_keeps_rescale_witness :
  explain_stable white_pixel = true /\
  exists y r, fst get_explain_data_aug white_pixel = Some y /\
              snd get_explain_data_aug y = Some r /\
              tensor_Qeq r (mul_scalar white_pixel (1 / 255)).
Proof.
  assert (H : explain_stable white_pixel = true) by reflexivity.
  exact (conj H (explain_inverse_keeps_rescale white_pixel H)).
Defined.

(** C2 as stated fails on a white pixel: forward then inverse gives the
    value 1 where the input holds 255. *)
Lemma explain_inverse_white_pixel :
  (exists y r, fst get_explain_data_aug white_pixel = Some y /\
               snd get_explain_data_aug y = Some r /\
               elem r [0; 0; 0]%nat == 1) /\
  ~ (exists y r, fst get_explain_data_aug white_pixel = Some y /\
                 snd get_explain_data_aug y = Some r /\
                 tensor_Qeq r white_pixel).
Proof.
  destruct (explain_3d 1 1 (fun _ => 255)) as (y & r & Hy & Hr & Hs & He);
    [right; lia|].
  fold white_pixel in Hy, He.
  assert (H1 : elem r [0; 0; 0]%nat == 1).
  { rewrite He by (rewrite Hs; reflexivity). vm_compute. reflexivity. }
  split.
  - exists y, r. auto.
  - intros (y' & r' & Hy' & Hr' & Hs' & He').
    rewrite Hy in Hy'. injection Hy' as <-.
    rewrite Hr in Hr'. injection Hr' as <-.
    specialize (He' [0; 0; 0]%nat). rewrite Hs in He'.
    specialize (He' eq_refl). rewrite H1 in He'.
    vm_compute in He'. discriminate.
Qed.

End ExplainProps.

Module JsonProps.
Import Json.
#[local] Open Scope string_scope.

Section Facts.
Variable locate : string -> result string.

Lemma append_fresh (new_dict : gmap string json) (path file : string)
    (fs : gmap string json) :
  locate path = Ok file ->
  fs !! file = None ->
  append_dict_to_json_file locate new_dict path fs
  = Ok (<[file := JObj (new_dict ∪ ∅)]> fs).
Proof.
  intros Hl H. unfold append_dict_to_json_file, load_json_file, dump_to.
  now rewrite Hl, H.
Qed.

Lemma append_object (new_dict d : gmap string json) (path file : string)
    (fs : gmap string json) :
  locate path = Ok file ->
  fs !! file = Some (JObj d) ->
  append_dict_to_json_file locate new_dict path fs
  = Ok (<[file := JObj (new_dict ∪ d)]> fs).
Proof.
  intros Hl H. unfold append_dict_to_json_file, load_json_file, dump_to.
  now rewrite Hl, H.
Qed.

Lemma load_after_write (v : json) (path file : string)
    (fs : gmap string json) :
  locate path = Ok file ->
  load_json_file locate path (<[file := v]> fs) = Ok v.
Proof.
  intros Hl. unfold load_json_file. now rewrite Hl, lookup_insert_eq.
Qed.

Lemma merge_lookup (new_dict d : gmap string json) (k : string) :
  (new_dict ∪ d) !! k
  = match new_dict !! k with Some v => Some v | None => d !! k end.
Proof.
  destruct (new_dict !! k) as [v|] eqn:E.
  - now apply lookup_union_Some_l.
  - now apply lookup_union_r.
Qed.

(** C5: on a path that can be opened and whose file does not exist yet,
    appending {"a":1} and then {"b":2} leaves a file whose content is
    {"a":1,"b":2}, and appending {"a":3} after that leaves {"a":3,"b":2};
    no other file changes.  In general an append to a file that holds an
    object rewrites the file with the key-wise merge in which the keys of
    the new dictionary win. *)
Theorem append_dict_to_json_file_merges (path file : string)
    (fs fs' : gmap string json) (new_dict d : gmap string json) :
  locate path = Ok file ->
  fs !! file = None ->
  fs' !! file = Some (JObj d) ->
  (exists fs1 fs2 fs3,
      append_dict_to_json_file locate {["a" := JNum 1]} path fs = Ok fs1 /\
      append_dict_to_json_file locate {["b" := JNum 2]} path fs1 = Ok fs2 /\
      load_json_file locate path fs2
        = Ok (JObj {["a" := JNum 1; "b" := JNum 2]}) /\
      append_dict_to_json_file locate {["a" := JNum 3]} path fs2 = Ok fs3 /\
      load_json_file locate path fs3
        = Ok (JObj {["a" := JNum 3; "b" := JNum 2]}) /\
      forall other, other <> file -> fs3 !! other = fs !! other) /\
  (exists fs'' d',
      append_dict_to_json_file locate new_dict path fs' = Ok fs'' /\
      load_json_file locate path fs'' = Ok (JObj d') /\
      (forall k, d' !! k
                 = match new_dict !! k with
                   | Some v => Some v
                   | None => d !! k
                   end) /\
      forall other, other <> file -> fs'' !! other = fs' !! other).
Proof.
  intros Hl Hfresh Hd. split.
  - eexists. eexists. eexists.
    split; [exact (append_fresh _ _ _ _ Hl Hfresh)|].
    split; [apply append_object; [exact Hl | apply lookup_insert_eq]|].
    split.
    { rewrite (load_after_write _ _ _ _ Hl). now f_equal. }
    split; [apply append_object; [exact Hl | apply lookup_insert_eq]|].
    split.
    { rewrite (load_after_write _ _ _ _ Hl). now f_equal. }
    intros other Ho. assert (Ho' : file <> other) by congruence.
    now rewrite !lookup_insert_ne by exact Ho'.
  - eexists. eexists.
    split; [exact (append_object _ _ _ _ _ Hl Hd)|].
    split; [apply (load_after_write _ _ _ _ Hl)|].
    split; [apply merge_lookup|].
    intros other Ho. assert (Ho' : file <> other) by congruence.
    now rewrite lookup_insert_ne by exact Ho'.
Qed.
End Facts.

Lemma append_dict_to_json_file_merges_witness :
  work_dir "data.json" = Ok "/work/data.json" /\
  (∅ : gmap string json) !! "/work/data.json" = None /\
  (<["/work/data.json" := JObj {["a" := JNum 1; "b" := JNum 2]}]> ∅
     : gmap string json) !! "/work/data.json"
  = Some (JObj {["a" := JNum 1; "b" := JNum 2]}) /\
  exists fs1 fs2 fs3,
    append_dict_to_json_file work_dir {["a" := JNum 1]} "data.json" ∅
    = Ok fs1 /\
    append_dict_to_json_file work_dir {["b" := JNum 2]} "data.json" fs1
    = Ok fs2 /\
    load_json_file work_dir "data.json" fs2
      = Ok (JObj {["a" := JNum 1; "b" := JNum 2]}) /\
    append_dict_to_json_file work_dir {["a" := JNum 3]} "data.json" fs2
    = Ok fs3 /\
    load_json_file work_dir "data.json" fs3
      = Ok (JObj {["a" := JNum 3; "b" := JNum 2]}) /\
    forall other, other <> "/work/data.json" ->
                  fs3 !! other = (∅ : gmap string json) !! other.
Proof.
  assert (Hl : work_dir "data.json" = Ok "/work/data.json") by reflexivity.
  assert (H : (∅ : gmap string json) !! "/work/data.json" = None)
    by reflexivity.
  assert (H' : (<["/work/data.json" := JObj {["a" := JNum 1; "b" := JNum 2]}]> ∅
                  : gmap string json) !! "/work/data.json"
               = Some (JObj {["a" := JNum 1; "b" := JNum 2]}))
    by (vm_compute; reflexivity).
  exact (conj Hl (conj H (conj H'
    (proj1 (append_dict_to_json_file_merges work_dir "data.json" _ ∅ _
              {["a" := JNum 3]} _ Hl H H'))))).
Defined.

End JsonProps.

Module SeedingProps.
Import Seeding.
#[local] Open Scope Z_scope.

(** The fallback path, for contrast: without a worker id both sources are
    seeded with torch's initial seed modulo 2^32 and [None] is returned. *)
Lemma set_seed_for_worker_none (st : RandomState) :
  set_seed_for_worker None st
  = Some (None, {| numpy_seed := torch_initial_seed st mod 2 ^ 32;
                   python_seed := torch_initial_seed st mod 2 ^ 32;
                   torch_initial_seed := torch_initial_seed st |}).
Proof.
  unfold set_seed_for_worker, np_random_seed.
  assert (H : 0 <= torch_initial_seed st mod 2 ^ 32 < 2 ^ 32)
    by (apply Z.mod_pos_bound; reflexivity).
  destruct H as [H0 H1]. apply Z.leb_le in H0. apply Z.ltb_lt in H1.
  rewrite H0, H1. reflexivity.
Qed.

(** C10: with worker id 0 the test [worker_id is not None] succeeds, so the
    worker branch runs: NumPy and Python's [random] are both seeded with 0
    and the function returns 0, not [None], whatever torch's initial seed
    is; the result is not that of the fallback path. *)
Theorem set_seed_for_worker_zero (st : RandomState) :
  set_seed_for_worker (Some 0) st
  = Some (Some 0, {| numpy_seed := 0; python_seed := 0;
                     torch_initial_seed := torch_initial_seed st |})
  /\ set_seed_for_worker (Some 0) st <> set_seed_for_worker None st.
Proof.
  split; [reflexivity|].
  rewrite set_seed_for_worker_none. cbn. discriminate.
Qed.

End SeedingProps.

Module AugmentProps.
Import Explain Augment.
#[local] Open Scope string_scope.

(** C6: when [aug_type] is none of "trivial", "augmix" and "rand", the
    function still returns its two pipelines, and the train pipeline is
    exactly random-resized-crop, random-horizontal-flip, tensor conversion
    and normalization, in that order, with no strategy-specific step. *)
Theorem get_data_augmentation_unknown_aug_type (args : Args) :
  aug_type args <> "trivial" ->
  aug_type args <> "augmix" ->
  aug_type args <> "rand" ->
  get_data_augmentation args
  = [("train",
      Compose [RandomResizedCrop (crop_size args) (interpolation args);
               RandomHorizontalFlip (hflip args);
               ToTensor;
               Normalize IMAGENET_DEFAULT_MEAN IMAGENET_DEFAULT_STD]);
     ("val",
      Compose [Resize (val_resize args) (interpolation args);
               CenterCrop (crop_size args);
               ToTensor;
               Normalize IMAGENET_DEFAULT_MEAN IMAGENET_DEFAULT_STD])]
  /\ lookup_key "train" (get_data_augmentation args)
     = Some (Compose [RandomResizedCrop (crop_size args) (interpolation args);
                      RandomHorizontalFlip (hflip args);
                      ToTensor;
                      Normalize IMAGENET_DEFAULT_MEAN IMAGENET_DEFAULT_STD]).
Proof.
  intros Ht Ha Hr. unfold get_data_augmentation.
  apply String.eqb_neq in Ht, Ha, Hr. rewrite Ht, Ha, Hr.
  split; reflexivity.
Qed.

Lemma get_data_augmentation_unknown_aug_type_witness :
  let args := {| crop_size := 224; interpolation := BICUBIC; hflip := true;
                 aug_type := "cutmix"; mag_bins := 3; val_resize := 256 |} in
  aug_type args <> "trivial" /\
  aug_type args <> "augmix" /\
  aug_type args <> "rand" /\
  lookup_key "train" (get_data_augmentation args)
  = Some (Compose [RandomResizedCrop 224 BICUBIC;
                   RandomHorizontalFlip true;
                   ToTensor;
                   Normalize IMAGENET_DEFAULT_MEAN IMAGENET_DEFAULT_STD]).
Proof.
  intros args.
  assert (Ht : aug_type args <> "trivial") by (vm_compute; discriminate).
  assert (Ha : aug_type args <> "augmix") by (vm_compute; discriminate).
  assert (Hr : aug_type args <> "rand") by (vm_compute; discriminate).
  exact (conj Ht (conj Ha (conj Hr
    (proj2 (get_data_augmentation_unknown_aug_type args Ht Ha Hr))))).
Defined.

End AugmentProps.

Module OptimProps.
Import Optim.
#[local] Open Scope string_scope.

Lemma Qlt_bool_true (x y : Q) : Qlt_bool x y = true <-> (x < y)%Q.
Proof.
  unfold Qlt_bool. rewrite negb_true_iff. split.
  - intros H. apply Qnot_le_lt. intros Hle.
    apply Qle_bool_iff in Hle. congruence.
  - intros H. destruct (Qle_bool y x) eqn:E; [|reflexivity].
    apply Qle_bool_iff in E. now apply Qlt_not_le in H.
Qed.

Lemma Qlt_bool_false (x y : Q) : Qlt_bool x y = false <-> (y <= x)%Q.
Proof.
  unfold Qlt_bool. rewrite negb_false_iff. apply Qle_bool_iff.
Qed.

Lemma Qle_bool_false (x y : Q) : Qle_bool x y = false <-> (y < x)%Q.
Proof.
  split.
  - intros H. apply Qnot_le_lt. intros Hle.
    apply Qle_bool_iff in Hle. congruence.
  - intros H. destruct (Qle_bool x y) eqn:E; [|reflexivity].
    apply Qle_bool_iff in E. now apply Qlt_not_le in H.
Qed.

(** The warmup phase is built for a start factor in (0, 1] and for no
    other. *)
Lemma new_LinearLR_cases (start_factor : Q) (total_iters : nat) :
  (new_LinearLR start_factor total_iters
   = Ok (LinearLR start_factor total_iters) /\
   (0 < start_factor)%Q /\ (start_factor <= 1)%Q)
  \/
  (new_LinearLR start_factor total_iters = Raise ValueError /\
   ((start_factor <= 0)%Q \/ (1 < start_factor)%Q)).
Proof.
  unfold new_LinearLR.
  destruct (Qlt_bool 1 start_factor) eqn:E1; cbn.
  - right. split; [reflexivity|]. right. now apply Qlt_bool_true.
  - destruct (Qle_bool start_factor 0) eqn:E2.
    + right. split; [reflexivity|]. left. now apply Qle_bool_iff.
    + left. split; [reflexivity|]. split.
      * now apply Qle_bool_false.
      * now apply Qlt_bool_false.
Qed.

Lemma new_LinearLR_accepts (start_factor : Q) (total_iters : nat) :
  (0 < start_factor)%Q -> (start_factor <= 1)%Q ->
  new_LinearLR start_factor total_iters
  = Ok (LinearLR start_factor total_iters).
Proof.
  intros H0 H1.
  destruct (new_LinearLR_cases start_factor total_iters)
    as [[H _]|[_ [H|H]]]; [exact H | |].
  - now apply Qlt_not_le in H0.
  - now apply Qlt_not_le in H.
Qed.

Lemma new_LinearLR_rejects (start_factor : Q) (total_iters : nat) :
  (start_factor <= 0)%Q \/ (1 < start_factor)%Q ->
  new_LinearLR start_factor total_iters = Raise ValueError.
Proof.
  intros Hbad.
  destruct (new_LinearLR_cases start_factor total_iters)
    as [(_ & H0 & H1)|[H _]]; [|exact H].
  destruct Hbad as [H|H]; [now apply Qlt_not_le in H0
                          |now apply Qlt_not_le in H].
Qed.

Section Facts.
Context {P : Type}.

(** An optimizer is built for a parameter list that is not empty with a
    learning rate, momentum and weight decay that are not negative, and
    for nothing else. *)
Lemma new_SGD_cases (params : list P) (lr weight_decay momentum : Q) :
  (new_SGD params lr weight_decay momentum
   = Ok (SGD params lr weight_decay momentum) /\
   params <> [] /\ (0 <= lr)%Q /\ (0 <= momentum)%Q /\
   (0 <= weight_decay)%Q)
  \/
  (new_SGD params lr weight_decay momentum = Raise ValueError /\
   (params = [] \/ (lr < 0)%Q \/ (momentum < 0)%Q \/ (weight_decay < 0)%Q)).
Proof.
  unfold new_SGD.
  destruct (Qlt_bool lr 0) eqn:E1; cbn.
  { right. split; [reflexivity|]. right. left. now apply Qlt_bool_true. }
  destruct (Qlt_bool momentum 0) eqn:E2; cbn.
  { right. split; [reflexivity|]. right. right. left.
    now apply Qlt_bool_true. }
  destruct (Qlt_bool weight_decay 0) eqn:E3; cbn.
  { right. split; [reflexivity|]. right. right. right.
    now apply Qlt_bool_true. }
  destruct params as [|param params]; cbn.
  { right. split; [reflexivity|]. now left. }
  left. split; [reflexivity|]. split; [discriminate|].
  repeat split; now apply Qlt_bool_false.
Qed.

Lemma new_AdamW_cases (params : list P) (lr weight_decay : Q) :
  (new_AdamW params lr weight_decay = Ok (AdamW params lr weight_decay) /\
   params <> [] /\ (0 <= lr)%Q /\ (0 <= weight_decay)%Q)
  \/
  (new_AdamW params lr weight_decay = Raise ValueError /\
   (params = [] \/ (lr < 0)%Q \/ (weight_decay < 0)%Q)).
Proof.
  unfold new_AdamW.
  destruct (Qlt_bool lr 0) eqn:E1; cbn.
  { right. split; [reflexivity|]. right. left. now apply Qlt_bool_true. }
  destruct (Qlt_bool weight_decay 0) eqn:E3; cbn.
  { right. split; [reflexivity|]. right. right. now apply Qlt_bool_true. }
  destruct params as [|param params]; cbn.
  { right. split; [reflexivity|]. now left. }
  left. split; [reflexivity|]. split; [discriminate|].
  split; now apply Qlt_bool_false.
Qed.

(** C4: with [opt_name] "sgd", a parameter list that is not empty and a
    learning rate and weight decay that are not negative, the result is
    an SGD optimizer over the given parameters with momentum 0.9 and the
    learning rate and weight decay of [args]; with a name that is neither
    "sgd" nor "adamw" the result is [None], whatever the other
    arguments. *)
Theorem get_optimizer_sgd_or_none (args args' : Args)
    (params params' : list P) :
  opt_name args = "sgd" ->
  params <> [] ->
  (0 <= lr args)%Q ->
  (0 <= wd args)%Q ->
  opt_name args' <> "sgd" ->
  opt_name args' <> "adamw" ->
  get_optimizer args params
  = Ok (Some (SGD params (lr args) (wd args) 0.9%Q))
  /\ get_optimizer args' params' = Ok None.
Proof.
  intros Hs Hp Hlr Hwd Hn Ha. unfold get_optimizer. rewrite Hs.
  apply String.eqb_neq in Hn, Ha. rewrite Hn, Ha. split; [|reflexivity].
  cbn [String.eqb Ascii.eqb Bool.eqb].
  destruct (new_SGD_cases params (lr args) (wd args) 0.9%Q)
    as [[H _]|[_ [H|[H|[H|H]]]]].
  - now rewrite H.
  - contradiction.
  - now apply Qlt_not_le in H.
  - discriminate H.
  - now apply Qlt_not_le in H.
Qed.

(** C7 (amended): with a [sched_name] that is neither "step" nor "cosine"
    and a [warmup_decay] in (0, 1] the result is [None]: no exception,
    and no scheduler of any kind.  With a [warmup_decay] outside (0, 1]
    the construction of the warmup phase raises [ValueError], whatever
    the name. *)
Theorem get_lr_scheduler_unknown_name (args args' : Args)
    (optimizer optimizer' : Optimizer P) :
  sched_name args <> "step" ->
  sched_name args <> "cosine" ->
  (0 < warmup_decay args)%Q ->
  (warmup_decay args <= 1)%Q ->
  (warmup_decay args' <= 0)%Q \/ (1 < warmup_decay args')%Q ->
  get_lr_scheduler args optimizer = Ok None /\
  get_lr_scheduler args' optimizer' = Raise ValueError.
Proof.
  intros Hs Hc H0 H1 Hbad. unfold get_lr_scheduler. split.
  - rewrite (new_LinearLR_accepts _ _ H0 H1).
    apply String.eqb_neq in Hs, Hc. now rewrite Hs, Hc.
  - now rewrite (new_LinearLR_rejects _ _ Hbad).
Qed.
End Facts.

#[local] Opaque Qmult Qplus Qminus Qdiv Qopp Qinv.

Section ScheduleFacts.
Context {P : Type}.
Variable cos_pi : Q -> Q.

Lemma iter_step (s : SequentialLR) (e : nat) :
  Nat.iter e step s
  = {| base_lr := base_lr s; schedulers := schedulers s;
       milestones := milestones s; last_epoch := e + last_epoch s |}.
Proof.
  induction e as [|e IH]; simpl.
  - now destruct s.
  - rewrite IH. reflexivity.
Qed.

(** During warmup the first phase is in force, counted from epoch 0. *)
Lemma lr_in_warmup (base : Q) (w m : Phase) (e : nat) :
  e < 5 ->
  lr_at_epoch cos_pi
    {| base_lr := base; schedulers := [w; m]; milestones := [5];
       last_epoch := 0 |} e
  = phase_lr cos_pi base w e.
Proof.
  intros He. unfold lr_at_epoch. rewrite iter_step. cbn [base_lr schedulers
    milestones last_epoch]. rewrite Nat.add_0_r.
  unfold get_last_lr, bisect_right. cbn [base_lr schedulers milestones
    last_epoch filter].
  replace (5 <=? e)%nat with false by (symmetry; apply Nat.leb_gt; lia).
  cbn. now rewrite Nat.sub_0_r.
Qed.

(** From the milestone on the second phase is in force, counted from the
    milestone. *)
Lemma lr_after_warmup (base : Q) (w m : Phase) (k : nat) :
  lr_at_epoch cos_pi
    {| base_lr := base; schedulers := [w; m]; milestones := [5];
       last_epoch := 0 |} (5 + k)
  = phase_lr cos_pi base m k.
Proof.
  unfold lr_at_epoch. rewrite iter_step. cbn [base_lr schedulers
    milestones last_epoch]. rewrite Nat.add_0_r.
  unfold get_last_lr, bisect_right. cbn [base_lr schedulers milestones
    last_epoch filter].
  replace (5 <=? 5 + k)%nat with true by (symmetry; apply Nat.leb_le; lia).
  cbn [length nth nth_error]. f_equal. lia.
Qed.

Lemma Qpow_next_step (g : Q) (k st : nat) :
  0 < st -> Qpow g ((k + st) / st) = (g * Qpow g (k / st))%Q.
Proof.
  intros Hst. replace (k + st) with (k + 1 * st) by lia.
  rewrite Nat.div_add by lia. rewrite Nat.add_1_r. reflexivity.
Qed.

(** C3: with [sched_name] "step", five warmup epochs, twenty epochs in
    all, a positive step size and a [warmup_decay] in (0, 1], the
    scheduler exists; the rate at epoch 0 is
    [warmup_decay * base_lr], it rises linearly over epochs 0 to 4, at
    epoch 5 it is [base_lr], and from epoch 5 on it is [base_lr] times
    [gamma] to the number of completed [step_size]-epoch blocks, so that
    it is multiplied by [gamma] every [step_size] epochs and the warmup is
    never entered again. *)
Theorem step_schedule_after_warmup (args : Args) (optimizer : Optimizer P) :
  sched_name args = "step" ->
  warmup_epochs args = 5 ->
  epochs args = 20 ->
  0 < step_size args ->
  (0 < warmup_decay args)%Q ->
  (warmup_decay args <= 1)%Q ->
  exists s,
    get_lr_scheduler args optimizer = Ok (Some s) /\
    (lr_at_epoch cos_pi s 0 == warmup_decay args * initial_lr optimizer)%Q /\
    (lr_at_epoch cos_pi s 5 == initial_lr optimizer)%Q /\
    (forall k,
        (lr_at_epoch cos_pi s (5 + k)
         == initial_lr optimizer * Qpow (gamma args) (k / step_size args))%Q) /\
    (forall k,
        (lr_at_epoch cos_pi s (5 + k + step_size args)
         == gamma args * lr_at_epoch cos_pi s (5 + k))%Q) /\
    Forall (fun e =>
              (lr_at_epoch cos_pi s e
               == initial_lr optimizer
                  * (warmup_decay args
                     + (1 - warmup_decay args) * (Q_of_nat e / 5)))%Q)
           (seq 0 5).
Proof.
  destruct args as [on l w sn wdec we st g ep em].
  cbn [sched_name warmup_epochs epochs step_size gamma warmup_decay].
  intros -> -> -> Hst Hw0 Hw1.
  exists {| base_lr := initial_lr optimizer;
            schedulers := [LinearLR wdec 5; StepLR st g];
            milestones := [5]; last_epoch := 0 |}.
  split.
  { unfold get_lr_scheduler.
    cbn [sched_name warmup_epochs epochs step_size gamma warmup_decay].
    now rewrite (new_LinearLR_accepts _ _ Hw0 Hw1). }
  split; [|split; [|split; [|split]]].
  - rewrite lr_in_warmup by lia. cbn. unfold Q_of_nat. cbn. field.
  - rewrite (lr_after_warmup _ _ _ 0). cbn [phase_lr].
    rewrite Nat.Div0.div_0_l. cbn [Qpow]. ring.
  - intros k. rewrite lr_after_warmup. reflexivity.
  - intros k. replace (5 + k + st) with (5 + (k + st)) by lia.
    rewrite !lr_after_warmup. cbn [phase_lr].
    rewrite Qpow_next_step by exact Hst. ring.
  - repeat constructor; rewrite lr_in_warmup by lia; cbn; unfold Q_of_nat;
      cbn; field.
Qed.
End ScheduleFacts.

Lemma get_optimizer_sgd_or_none_witness :
  opt_name sgd_args = "sgd" /\
  [tt] <> [] /\
  (0 <= lr sgd_args)%Q /\
  (0 <= wd sgd_args)%Q /\
  opt_name lion_args <> "sgd" /\
  opt_name lion_args <> "adamw" /\
  get_optimizer sgd_args [tt] = Ok (Some (SGD [tt] 0.01%Q 0.0001%Q 0.9%Q)) /\
  get_optimizer lion_args ([] : list unit) = Ok None.
Proof.
  assert (Hs : opt_name sgd_args = "sgd") by reflexivity.
  assert (Hp : [tt] <> []) by discriminate.
  assert (Hlr : (0 <= lr sgd_args)%Q) by (vm_compute; discriminate).
  assert (Hwd : (0 <= wd sgd_args)%Q) by (vm_compute; discriminate).
  assert (Hn : opt_name lion_args <> "sgd") by (vm_compute; discriminate).
  assert (Ha : opt_name lion_args <> "adamw") by (vm_compute; discriminate).
  exact (conj Hs (conj Hp (conj Hlr (conj Hwd (conj Hn (conj Ha
    (get_optimizer_sgd_or_none sgd_args lion_args [tt] [] Hs Hp Hlr Hwd
       Hn Ha))))))).
Defined.

(** C7 as stated fails when the warmup cannot be built: with the unknown
    name "plateau" and a [warmup_decay] of 0 the function raises
    [ValueError] instead of returning [None]. *)
Lemma get_lr_scheduler_unknown_name_raises :
  sched_name cold_args <> "step" /\
  sched_name cold_args <> "cosine" /\
  get_lr_scheduler cold_args (SGD [tt] 0.01%Q 0.0001%Q 0.9%Q)
  = Raise ValueError /\
  get_lr_scheduler cold_args (SGD [tt] 0.01%Q 0.0001%Q 0.9%Q) <> Ok None.
Proof.
  split; [vm_compute; discriminate|]. split; [vm_compute; discriminate|].
  split; [reflexivity|]. vm_compute. discriminate.
Qed.

Lemma get_lr_scheduler_unknown_name_witness :
  sched_name lion_args <> "step" /\
  sched_name lion_args <> "cosine" /\
  (0 < warmup_decay lion_args)%Q /\
  (warmup_decay lion_args <= 1)%Q /\
  ((warmup_decay cold_args <= 0)%Q \/ (1 < warmup_decay cold_args)%Q) /\
  get_lr_scheduler lion_args (SGD [tt] 0.01%Q 0.0001%Q 0.9%Q) = Ok None /\
  get_lr_scheduler cold_args (SGD [tt] 0.01%Q 0.0001%Q 0.9%Q)
  = Raise ValueError.
Proof.
  assert (Hs : sched_name lion_args <> "step") by (vm_compute; discriminate).
  assert (Hc : sched_name lion_args <> "cosine")
    by (vm_compute; discriminate).
  assert (H0 : (0 < warmup_decay lion_args)%Q) by (vm_compute; reflexivity).
  assert (H1 : (warmup_decay lion_args <= 1)%Q)
    by (vm_compute; discriminate).
  assert (Hbad : (warmup_decay cold_args <= 0)%Q
                 \/ (1 < warmup_decay cold_args)%Q)
    by (left; vm_compute; discriminate).
  exact (conj Hs (conj Hc (conj H0 (conj H1 (conj Hbad
    (get_lr_scheduler_unknown_name lion_args cold_args _ _
       Hs Hc H0 H1 Hbad)))))).
Defined.

Lemma step_schedule_after_warmup_witness :
  let optimizer := SGD [tt] 0.01%Q 0.0001%Q 0.9%Q in
  let cos_pi := fun _ : Q => 0%Q in
  sched_name sgd_args = "step" /\
  warmup_epochs sgd_args = 5 /\
  epochs sgd_args = 20 /\
  0 < step_size sgd_args /\
  (0 < warmup_decay sgd_args)%Q /\
  (warmup_decay sgd_args <= 1)%Q /\
  exists s,
    get_lr_scheduler sgd_args optimizer = Ok (Some s) /\
    (lr_at_epoch cos_pi s 0 == 0.0001)%Q /\
    (lr_at_epoch cos_pi s 5 == 0.01)%Q /\
    (lr_at_epoch cos_pi s 15 == 0.001)%Q.
Proof.
  intros optimizer cos_pi.
  assert (H1 : sched_name sgd_args = "step") by reflexivity.
  assert (H2 : warmup_epochs sgd_args = 5) by reflexivity.
  assert (H3 : epochs sgd_args = 20) by reflexivity.
  assert (H4 : 0 < step_size sgd_args) by (vm_compute; lia).
  assert (H5 : (0 < warmup_decay sgd_args)%Q) by (vm_compute; reflexivity).
  assert (H6 : (warmup_decay sgd_args <= 1)%Q) by (vm_compute; discriminate).
  repeat (split; [assumption|]).
  destruct (step_schedule_after_warmup cos_pi sgd_args optimizer
              H1 H2 H3 H4 H5 H6) as (s & Hs & Hl0 & Hl5 & Hk & _).
  exists s. split; [exact Hs|]. split; [|split].
  - rewrite Hl0. vm_compute. reflexivity.
  - rewrite Hl5. vm_compute. reflexivity.
  - rewrite (Hk 10). vm_compute. reflexivity.
Defined.

End OptimProps.

Module ClassWeightsProps.
Import ClassWeights.

Lemma bincount_nth (x : list nat) (i : nat) :
  In i x ->
  nth_error (bincount x) i = Some (count_occ Nat.eq_dec x i).
Proof.
  intros Hin. assert (Hmax : i <= list_max x).
  { assert (H : Forall (fun k => k <= list_max x) x)
      by now apply list_max_le.
    rewrite Forall_forall in H. now apply H. }
  unfold bincount. destruct x as [|a x]; [contradiction|].
  rewrite nth_error_map, nth_error_seq.
  replace (i <? S (list_max (a :: x))) with true
    by (symmetry; apply Nat.ltb_lt; lia).
  reflexivity.
Qed.

Lemma Q_of_nat_mul (a b : nat) :
  (Q_of_nat (a * b) == Q_of_nat a * Q_of_nat b)%Q.
Proof.
  unfold Q_of_nat. now rewrite Nat2Z.inj_mul, inject_Z_mult.
Qed.

(** A list in which only 0 and 1 are counted holds nothing else. *)
Lemma two_classes_only (x : list nat) :
  count_occ Nat.eq_dec x 0 + count_occ Nat.eq_dec x 1 = length x ->
  Forall (fun k => k <= 1) x.
Proof.
  induction x as [|a x IH]; [constructor|].
  pose proof (count_occ_bound Nat.eq_dec 0 x) as B0.
  pose proof (count_occ_bound Nat.eq_dec 1 x) as B1.
  assert (Bsum : count_occ Nat.eq_dec x 0 + count_occ Nat.eq_dec x 1
                 <= length x).
  { clear IH B0 B1. induction x as [|b x IHx]; simpl; [lia|].
    destruct (Nat.eq_dec b 0), (Nat.eq_dec b 1); simpl; lia. }
  simpl. destruct (Nat.eq_dec a 0), (Nat.eq_dec a 1); simpl; intros H;
    try lia; constructor; try lia; apply IH; lia.
Qed.

Lemma bincount_two_classes (x : list nat) (n0 n1 : nat) :
  count_occ Nat.eq_dec x 0 = n0 ->
  count_occ Nat.eq_dec x 1 = n1 ->
  0 < n1 ->
  length x = n0 + n1 ->
  bincount x = [n0; n1].
Proof.
  intros H0 H1 Hpos Hlen.
  assert (Hle : list_max x <= 1).
  { apply list_max_le, two_classes_only. lia. }
  assert (Hin : In 1 x) by (apply (count_occ_In Nat.eq_dec); lia).
  assert (Hge : 1 <= list_max x).
  { assert (H : Forall (fun k => k <= list_max x) x)
      by now apply list_max_le.
    rewrite Forall_forall in H. now apply H. }
  unfold bincount. destruct x as [|a x]; [contradiction|].
  replace (list_max (a :: x)) with 1 by lia.
  cbn [seq map]. now rewrite H0, H1.
Qed.

(** C8: the weight of a class that has samples is the number of samples
    divided by the number of classes times the samples of the class; and
    a loader whose targets hold 80 samples of class 0 and 20 of class 1,
    with two class names, gets the weights [0.625; 2.5]. *)
Theorem get_class_weights_inverse_frequency
    (data_loader : DataLoader) (c : nat) (two_class_loader : DataLoader) :
  In c (targets (dataset data_loader)) ->
  classes (dataset data_loader) <> [] ->
  count_occ Nat.eq_dec (targets (dataset two_class_loader)) 0 = 80 ->
  count_occ Nat.eq_dec (targets (dataset two_class_loader)) 1 = 20 ->
  length (targets (dataset two_class_loader)) = 100 ->
  length (classes (dataset two_class_loader)) = 2 ->
  (exists w,
      nth_error (get_class_weights data_loader) c = Some (Finite w) /\
      (w == Q_of_nat (length (targets (dataset data_loader)))
            / (Q_of_nat (length (classes (dataset data_loader)))
               * Q_of_nat (count_occ Nat.eq_dec
                             (targets (dataset data_loader)) c)))%Q) /\
  Forall2 float_eq (get_class_weights two_class_loader)
    [Finite 0.625; Finite 2.5] /\
  (0.625 == 100 / (2 * 80))%Q /\ (2.5 == 100 / (2 * 20))%Q.
Proof.
  intros Hin Hcls H0 H1 Hlen Hncls. split; [|split].
  - unfold get_class_weights.
    rewrite nth_error_map, (bincount_nth _ _ Hin). cbn [option_map].
    apply (count_occ_In Nat.eq_dec) in Hin.
    assert (Hn : length (classes (dataset data_loader)) <> 0)
      by (destruct (classes (dataset data_loader)); [congruence|discriminate]).
    unfold true_divide.
    replace (_ * _ =? 0) with false by (symmetry; apply Nat.eqb_neq; nia).
    eexists. split; [reflexivity|]. now rewrite Q_of_nat_mul.
  - unfold get_class_weights.
    rewrite (bincount_two_classes _ 80 20) by (assumption || lia).
    rewrite Hlen, Hncls. cbn [map].
    repeat constructor; vm_compute; reflexivity.
  - split; vm_compute; reflexivity.
Qed.

Lemma get_class_weights_inverse_frequency_witness :
  In 0 (targets (dataset loader_80_20)) /\
  classes (dataset loader_80_20) <> [] /\
  count_occ Nat.eq_dec (targets (dataset loader_80_20)) 0 = 80 /\
  count_occ Nat.eq_dec (targets (dataset loader_80_20)) 1 = 20 /\
  length (targets (dataset loader_80_20)) = 100 /\
  length (classes (dataset loader_80_20)) = 2 /\
  Forall2 float_eq (get_class_weights loader_80_20)
    [Finite 0.625; Finite 2.5].
Proof.
  assert (Hin : In 0 (targets (dataset loader_80_20))) by (left; reflexivity).
  assert (Hcls : classes (dataset loader_80_20) <> []) by discriminate.
  assert (H0 : count_occ Nat.eq_dec (targets (dataset loader_80_20)) 0 = 80)
    by (vm_compute; reflexivity).
  assert (H1 : count_occ Nat.eq_dec (targets (dataset loader_80_20)) 1 = 20)
    by (vm_compute; reflexivity).
  assert (Hlen : length (targets (dataset loader_80_20)) = 100)
    by (vm_compute; reflexivity).
  assert (Hn : length (classes (dataset loader_80_20)) = 2) by reflexivity.
  repeat (split; [assumption|]).
  exact (proj1 (proj2 (get_class_weights_inverse_frequency
    loader_80_20 0 loader_80_20 Hin Hcls H0 H1 Hlen Hn))).
Defined.

End ClassWeightsProps.

Module LayoutProps.
Import Tensors TensorsProps Layout.

Section Facts.
Context {A : Type}.
Implicit Types t : Tensor A.

(** X1: What the conversions do to one image.  A height x width x channel
    tensor whose height is not 3 becomes channel x height x width under
    [convert_to_channels_first], entry (k, i, j) of the result being entry
    (i, j, k) of the input; a channel x height x width tensor whose width
    is not 3 becomes height x width x channel under
    [convert_to_channels_last], entry (i, j, k) of the result being entry
    (k, i, j) of the input. *)
Theorem convert_image_axes (hwc chw : Tensor A) (h w c c' h' w' : nat) :
  shape hwc = [h; w; c] ->
  h <> 3 ->
  shape chw = [c'; h'; w'] ->
  w' <> 3 ->
  (shape (convert_to_channels_first hwc) = [c; h; w] /\
   forall i j k,
     get (convert_to_channels_first hwc) [k; i; j] = get hwc [i; j; k]) /\
  (shape (convert_to_channels_last chw) = [h'; w'; c'] /\
   forall i j k,
     get (convert_to_channels_last chw) [i; j; k] = get chw [k; i; j]).
Proof.
  destruct hwc as [sh f], chw as [sh' f']; simpl.
  intros -> Hh -> Hw.
  unfold convert_to_channels_first, convert_to_channels_last, dim, shape_at.
  cbn -[in_bounds]. resolve_eqb3. split; split; try reflexivity.
  - intros i j k. unfold get; simpl. rewrite !andb_true_r.
    destruct (k <? c), (i <? h), (j <? w); reflexivity.
  - intros i j k. unfold get; simpl. rewrite !andb_true_r.
    destruct (k <? c'), (i <? h'), (j <? w'); reflexivity.
Qed.

(** X2: The same for a batch: batch x height x width x channel with height
    not 3 becomes batch x channel x height x width and back, the batch
    axis staying in front. *)
Theorem convert_batch_axes (nhwc nchw : Tensor A)
    (n h w c n' c' h' w' : nat) :
  shape nhwc = [n; h; w; c] ->
  h <> 3 ->
  shape nchw = [n'; c'; h'; w'] ->
  w' <> 3 ->
  (shape (convert_to_channels_first nhwc) = [n; c; h; w] /\
   forall m i j k,
     get (convert_to_channels_first nhwc) [m; k; i; j]
     = get nhwc [m; i; j; k]) /\
  (shape (convert_to_channels_last nchw) = [n'; h'; w'; c'] /\
   forall m i j k,
     get (convert_to_channels_last nchw) [m; i; j; k]
     = get nchw [m; k; i; j]).
Proof.
  destruct nhwc as [sh f], nchw as [sh' f']; simpl.
  intros -> Hh -> Hw.
  unfold convert_to_channels_first, convert_to_channels_last, dim, shape_at.
  cbn -[in_bounds]. resolve_eqb3. split; split; try reflexivity.
  - intros m i j k. unfold get; simpl. rewrite !andb_true_r.
    destruct (m <? n), (k <? c), (i <? h), (j <? w); reflexivity.
  - intros m i j k. unfold get; simpl. rewrite !andb_true_r.
    destruct (m <? n'), (k <? c'), (i <? h'), (j <? w'); reflexivity.
Qed.

(** X3: Neither conversion changes the number of axes or the sizes present:
    the shape of the result is a rearrangement of the shape of the input,
    whatever the tensor. *)
Theorem conversions_rearrange_shape t :
  Permutation (shape (convert_to_channels_first t)) (shape t) /\
  Permutation (shape (convert_to_channels_last t)) (shape t).
Proof.
  destruct t as [sh f].
  unfold convert_to_channels_first, convert_to_channels_last, dim, shape_at.
  destruct sh as [|a [|b [|c [|d [|e sh]]]]]; cbn -[in_bounds];
    try (split; reflexivity).
  - destruct (a =? 3), (c =? 3); cbn; split; try reflexivity.
    all: try apply (Permutation_cons_append [a; b] c).
    all: symmetry; apply (Permutation_cons_append [b; c] a).
  - destruct (b =? 3), (d =? 3); cbn; split; try reflexivity.
    all: try (apply perm_skip, (Permutation_cons_append [b; c] d)).
    all: apply perm_skip; symmetry; apply (Permutation_cons_append [c; d] b).
Qed.

Lemma permute_3d_roundtrip_rev t :
  dim t = 3 -> tensor_eq (permute [2; 0; 1] (permute [1; 2; 0] t)) t.
Proof.
  unfold dim. destruct t as [sh f]; simpl.
  destruct sh as [|a [|b [|c [|? ?]]]]; try discriminate. intros _.
  split; [reflexivity|]. intros idx. unfold get; simpl.
  destruct idx as [|i [|j [|k [|? ?]]]]; simpl; try reflexivity;
    try (rewrite !andb_false_r; reflexivity).
Qed.

Lemma permute_4d_roundtrip_rev t :
  dim t = 4 -> tensor_eq (permute [0; 3; 1; 2] (permute [0; 2; 3; 1] t)) t.
Proof.
  unfold dim. destruct t as [sh f]; simpl.
  destruct sh as [|n [|a [|b [|c [|? ?]]]]]; try discriminate. intros _.
  split; [reflexivity|]. intros idx. unfold get; simpl.
  destruct idx as [|i [|j [|k [|l [|? ?]]]]]; simpl; try reflexivity;
    try (rewrite !andb_false_r; reflexivity).
Qed.

Ltac roundtrip_cases a b c lemma :=
  destruct (Nat.eqb_spec a 3), (Nat.eqb_spec b 3), (Nat.eqb_spec c 3);
  subst; cbn -[in_bounds]; resolve_eqb3;
  (split;
   [| let Hst := fresh "Hst" in
      let Hs := fresh "Hs" in
      intros Hst; try discriminate Hst; intros Hs; simpl in Hs;
      injection Hs; intros; subst; congruence]);
  try (split; [reflexivity | intros _; apply tensor_eq_refl]);
  try (split; [intros [Hs _]; simpl in Hs; injection Hs; intros;
               subst; congruence | discriminate]);
  (split; [reflexivity | intros _; now apply lemma]).

(** X4: The round trip in the other direction.  For a 3-D tensor of shape
    (a, b, c) or a 4-D tensor of shape (n, a, b, c), channels-last followed
    by channels-first gives back the same shape and values exactly when
    a = c = 3 or neither b nor c is 3; so a channel x height x width image
    whose height and width are not 3 survives it, and on every other shape
    the result has a different shape. *)
Theorem reverse_roundtrip_iff t :
  dim t = 3 \/ dim t = 4 ->
  (tensor_eq (convert_to_channels_first (convert_to_channels_last t)) t
   <-> reverse_roundtrip_stable t = true) /\
  (reverse_roundtrip_stable t = false ->
   shape (convert_to_channels_first (convert_to_channels_last t))
   <> shape t).
Proof.
  destruct t as [sh f]. unfold dim; simpl. intros [H|H].
  - destruct sh as [|a [|b [|c [|? ?]]]]; try discriminate.
    unfold convert_to_channels_first, convert_to_channels_last,
      reverse_roundtrip_stable, dim, shape_at; cbn -[in_bounds].
    roundtrip_cases a b c (permute_3d_roundtrip_rev).
  - destruct sh as [|n [|a [|b [|c [|? ?]]]]]; try discriminate.
    unfold convert_to_channels_first, convert_to_channels_last,
      reverse_roundtrip_stable, dim, shape_at; cbn -[in_bounds].
    roundtrip_cases a b c (permute_4d_roundtrip_rev).
Qed.

(** X5: When one of the inspected axes has size 3, each conversion puts a
    size-3 axis where it wants the channels (third from the end for
    channels-first, last for channels-last) and applying it a second time
    changes nothing. *)
Theorem conversions_settle t :
  has_channel_axis t = true ->
  (shape_at (convert_to_channels_first t) (dim t - 3) = 3 /\
   convert_to_channels_first (convert_to_channels_first t)
   = convert_to_channels_first t) /\
  (shape_at (convert_to_channels_last t) (dim t - 1) = 3 /\
   convert_to_channels_last (convert_to_channels_last t)
   = convert_to_channels_last t).
Proof.
  destruct t as [sh f]. unfold has_channel_axis; simpl.
  destruct sh as [|n [|a [|b [|c [|? ?]]]]]; try discriminate.
  - unfold convert_to_channels_first, convert_to_channels_last, dim, shape_at;
      cbn -[in_bounds].
    destruct (Nat.eqb_spec n 3), (Nat.eqb_spec b 3); subst;
      cbn -[in_bounds]; try discriminate; intros _;
      resolve_eqb3; auto.
  - unfold convert_to_channels_first, convert_to_channels_last, dim, shape_at;
      cbn -[in_bounds].
    destruct (Nat.eqb_spec a 3), (Nat.eqb_spec c 3); subst;
      cbn -[in_bounds]; try discriminate; intros _;
      resolve_eqb3; auto.
Qed.

End Facts.

Lemma convert_image_axes_witness :
  shape hwc_4_5_3 = [4; 5; 3] /\ 4 <> 3 /\
  shape chw_3_4_5 = [3; 4; 5] /\ 5 <> 3 /\
  shape (convert_to_channels_first hwc_4_5_3) = [3; 4; 5] /\
  get (convert_to_channels_first hwc_4_5_3) [2; 1; 0] = Some [1; 0; 2] /\
  shape (convert_to_channels_last chw_3_4_5) = [4; 5; 3] /\
  get (convert_to_channels_last chw_3_4_5) [1; 0; 2] = Some [2; 1; 0].
Proof.
  assert (H1 : shape hwc_4_5_3 = [4; 5; 3]) by reflexivity.
  assert (H2 : 4 <> 3) by lia.
  assert (H3 : shape chw_3_4_5 = [3; 4; 5]) by reflexivity.
  assert (H4 : 5 <> 3) by lia.
  destruct (convert_image_axes hwc_4_5_3 chw_3_4_5 4 5 3 3 4 5 H1 H2 H3 H4)
    as [[Hs Hg] [Hs' Hg']].
  repeat (split; [assumption|]).
  split; [rewrite Hg; reflexivity|].
  split; [assumption|]. rewrite Hg'. reflexivity.
Defined.

Lemma convert_batch_axes_witness :
  shape nhwc_2_4_5_3 = [2; 4; 5; 3] /\ 4 <> 3 /\
  shape nchw_2_3_4_5 = [2; 3; 4; 5] /\ 5 <> 3 /\
  shape (convert_to_channels_first nhwc_2_4_5_3) = [2; 3; 4; 5] /\
  get (convert_to_channels_first nhwc_2_4_5_3) [1; 2; 1; 0]
  = Some [1; 1; 0; 2] /\
  shape (convert_to_channels_last nchw_2_3_4_5) = [2; 4; 5; 3].
Proof.
  assert (H1 : shape nhwc_2_4_5_3 = [2; 4; 5; 3]) by reflexivity.
  assert (H2 : 4 <> 3) by lia.
  assert (H3 : shape nchw_2_3_4_5 = [2; 3; 4; 5]) by reflexivity.
  assert (H4 : 5 <> 3) by lia.
  destruct (convert_batch_axes nhwc_2_4_5_3 nchw_2_3_4_5 2 4 5 3 2 3 4 5
              H1 H2 H3 H4) as [[Hs Hg] [Hs' Hg']].
  repeat (split; [assumption|]).
  split; [rewrite Hg; reflexivity|]. assumption.
Defined.

Lemma reverse_roundtrip_iff_witness :
  (dim chw_3_4_5 = 3 \/ dim chw_3_4_5 = 4) /\
  (dim hwc_4_5_3 = 3 \/ dim hwc_4_5_3 = 4) /\
  (tensor_eq (convert_to_channels_first (convert_to_channels_last chw_3_4_5))
     chw_3_4_5 <-> reverse_roundtrip_stable chw_3_4_5 = true) /\
  shape (convert_to_channels_first (convert_to_channels_last hwc_4_5_3))
  <> shape hwc_4_5_3.
Proof.
  assert (H : dim chw_3_4_5 = 3 \/ dim chw_3_4_5 = 4) by (left; reflexivity).
  assert (H' : dim hwc_4_5_3 = 3 \/ dim hwc_4_5_3 = 4) by (left; reflexivity).
  exact (conj H (conj H'
    (conj (proj1 (reverse_roundtrip_iff chw_3_4_5 H))
          (proj2 (reverse_roundtrip_iff hwc_4_5_3 H') eq_refl)))).
Defined.

Lemma conversions_settle_witness :
  has_channel_axis hwc_4_5_3 = true /\
  shape (convert_to_channels_first hwc_4_5_3) = [3; 4; 5] /\
  convert_to_channels_first (convert_to_channels_first hwc_4_5_3)
  = convert_to_channels_first hwc_4_5_3.
Proof.
  assert (H : has_channel_axis hwc_4_5_3 = true) by reflexivity.
  split; [exact H|]. split; [reflexivity|].
  exact (proj2 (proj1 (conversions_settle hwc_4_5_3 H))).
Defined.

End LayoutProps.

Module PipelineProps.
Import Tensors Explain TensorsProps Layout Pipeline.
#[local] Open Scope Q_scope.
#[local] Opaque Qmult Qplus Qminus Qdiv Qopp Qinv.

Ltac layout_step :=
  repeat (unfold convert_to_channels_first, convert_to_channels_last,
            dim, shape_at; cbn -[in_bounds]; resolve_eqb3).

Ltac channel_cases k :=
  destruct k as [|[|[|k]]]; [cbn; field .. | lia].

(** X6: On tensors of at most four axes the forward explanation transform
    returns a result exactly when one of the axes that the layout
    conversion inspects has size 3; otherwise, and in particular on a
    single-channel image and on anything with fewer than three axes,
    [Normalize] raises. *)
Theorem explain_forward_defined_iff (x : Tensor Q) :
  (dim x <= 4)%nat ->
  ((exists y, fst get_explain_data_aug x = Some y)
   <-> has_channel_axis x = true).
Proof.
  destruct x as [sh f]. unfold dim, has_channel_axis; simpl.
  destruct sh as [|n [|a [|b [|c [|? ?]]]]]; simpl; intros Hd; try lia;
    unfold get_explain_data_aug; cbn -[in_bounds].
  1-3: split; [intros [y Hy]; discriminate | discriminate].
  - destruct (Nat.eqb_spec n 3), (Nat.eqb_spec b 3); subst;
      layout_step; cbn -[in_bounds].
    1-3: split; [reflexivity | intros _; eexists; reflexivity].
    split; [intros [y Hy] | discriminate].
    destruct b as [|[|[|[|b]]]]; try congruence; vm_compute in Hy;
      discriminate.
  - destruct (Nat.eqb_spec a 3), (Nat.eqb_spec c 3); subst;
      layout_step; cbn -[in_bounds].
    1-3: split; [reflexivity | intros _; eexists; reflexivity].
    split; [intros [y Hy] | discriminate].
    destruct c as [|[|[|[|c]]]]; try congruence; vm_compute in Hy;
      discriminate.
Qed.

Ltac standard_shape H :=
  apply andb_prop in H as [H ?]; apply andb_prop in H as [H ?];
  apply Nat.eqb_eq in H; subst;
  repeat match goal with
    | Hn : negb (_ =? 3)%nat = true |- _ =>
        apply negb_true_iff, Nat.eqb_neq in Hn
    end.

Ltac transform_values :=
  unfold get_explain_data_aug; cbn -[in_bounds]; layout_step;
  eexists; split; [reflexivity|];
  unfold tensor_Qeq, normalized, denormalized, channel_of; layout_step;
  split; [reflexivity|]; intros idx Hb.

(** X7: On a channels-last image or batch whose height and width are not 3,
    the forward explanation transform keeps the shape and turns every
    entry v of channel c into (v / 255 - mean[c]) / std[c]. *)
Theorem explain_forward_values (x : Tensor Q) :
  standard_image x = true ->
  exists y, fst get_explain_data_aug x = Some y /\
            tensor_Qeq y (normalized x).
Proof.
  destruct x as [sh f]. unfold standard_image; simpl.
  destruct sh as [|n [|a [|b [|c [|? ?]]]]]; try discriminate; intros H;
    standard_shape H; transform_values.
  - apply in_bounds_3d in Hb as (i & j & k & -> & Hi & Hj & Hk).
    channel_cases k.
  - apply in_bounds_4d in Hb as (m & i & j & k & -> & Hm & Hi & Hj & Hk).
    channel_cases k.
Qed.

(** X8: On a tensor of the same kind the inverse transform keeps the shape and
    turns every entry v of channel c into v * std[c] + mean[c]; it never
    multiplies by 255. *)
Theorem explain_inverse_values (y : Tensor Q) :
  standard_image y = true ->
  exists r, snd get_explain_data_aug y = Some r /\
            tensor_Qeq r (denormalized y).
Proof.
  destruct y as [sh f]. unfold standard_image; simpl.
  destruct sh as [|n [|a [|b [|c [|? ?]]]]]; try discriminate; intros H;
    standard_shape H; transform_values.
  - apply in_bounds_3d in Hb as (i & j & k & -> & Hi & Hj & Hk).
    channel_cases k.
  - apply in_bounds_4d in Hb as (m & i & j & k & -> & Hm & Hi & Hj & Hk).
    channel_cases k.
Qed.

Lemma explain_forward_defined_iff_witness :
  (dim mono_2_2 <= 4)%nat /\
  has_channel_axis mono_2_2 = false /\
  ~ (exists y, fst get_explain_data_aug mono_2_2 = Some y).
Proof.
  assert (H : (dim mono_2_2 <= 4)%nat) by (vm_compute; lia).
  split; [exact H|]. split; [reflexivity|].
  intros Hy. apply (explain_forward_defined_iff mono_2_2 H) in Hy.
  vm_compute in Hy. discriminate.
Defined.

Lemma explain_forward_values_witness :
  standard_image grey_2_2 = true /\
  exists y, fst get_explain_data_aug grey_2_2 = Some y /\
            tensor_Qeq y (normalized grey_2_2).
Proof.
  assert (H : standard_image grey_2_2 = true) by reflexivity.
  exact (conj H (explain_forward_values grey_2_2 H)).
Defined.

Lemma explain_inverse_values_witness :
  standard_image grey_2_2 = true /\
  exists r, snd get_explain_data_aug grey_2_2 = Some r /\
            tensor_Qeq r (denormalized grey_2_2).
Proof.
  assert (H : standard_image grey_2_2 = true) by reflexivity.
  exact (conj H (explain_inverse_values grey_2_2 H)).
Defined.

End PipelineProps.

Module JsonFileProps.
Import Json JsonProps.
#[local] Open Scope string_scope.

Section Facts.
Variable locate : string -> result string.

Lemma append_non_object (new_dict : gmap string json) (path file : string)
    (fs : gmap string json) (v : json) :
  locate path = Ok file ->
  fs !! file = Some v ->
  (forall d, v <> JObj d) ->
  append_dict_to_json_file locate new_dict path fs = Raise AttributeError.
Proof.
  intros Hl Hv Hno. unfold append_dict_to_json_file, load_json_file.
  rewrite Hl, Hv. destruct v; try reflexivity. now destruct (Hno d).
Qed.

Lemma append_unopenable (new_dict : gmap string json) (path : string)
    (fs : gmap string json) (e : exn) :
  locate path = Raise e ->
  append_dict_to_json_file locate new_dict path fs = Raise e.
Proof.
  intros Hl. unfold append_dict_to_json_file, load_json_file, dump_to.
  rewrite Hl. now destruct e.
Qed.

(** What a successful append did, by what the path held. *)
Lemma append_cases (new_dict : gmap string json) (path : string)
    (fs fs1 : gmap string json) :
  append_dict_to_json_file locate new_dict path fs = Ok fs1 ->
  exists file d,
    locate path = Ok file /\
    (fs !! file = None /\ d = ∅ \/ fs !! file = Some (JObj d)) /\
    fs1 = <[file := JObj (new_dict ∪ d)]> fs.
Proof.
  destruct (locate path) as [file|e] eqn:Hl;
    [|rewrite (append_unopenable _ _ _ _ Hl); discriminate].
  destruct (fs !! file) as [v|] eqn:E.
  - destruct v;
      try (rewrite (append_non_object _ _ _ _ _ Hl E); [discriminate|];
           intros d' Hd'; discriminate).
    rewrite (append_object _ _ _ _ _ _ Hl E). intros [= <-].
    exists file, d. auto.
  - rewrite (append_fresh _ _ _ _ _ Hl E). intros [= <-].
    exists file, ∅. auto.
Qed.

(** X9: A file that does not exist.  In a directory that exists, reading
    it raises [FileNotFoundError], while appending to it succeeds and
    creates a file that holds exactly the new dictionary.  Under a
    directory that does not exist, reading raises [FileNotFoundError] and
    so does appending, whose [open] for writing is outside the [try]. *)
Theorem missing_file_load_and_append (new_dict : gmap string json)
    (path file lost : string) (fs : gmap string json) :
  locate path = Ok file ->
  fs !! file = None ->
  locate lost = Raise FileNotFoundError ->
  load_json_file locate path fs = Raise FileNotFoundError /\
  (exists fs1,
      append_dict_to_json_file locate new_dict path fs = Ok fs1 /\
      load_json_file locate path fs1 = Ok (JObj new_dict)) /\
  load_json_file locate lost fs = Raise FileNotFoundError /\
  append_dict_to_json_file locate new_dict lost fs = Raise FileNotFoundError.
Proof.
  intros Hl H Hlost. split; [|split; [|split]].
  - unfold load_json_file. now rewrite Hl, H.
  - eexists. split; [exact (append_fresh _ _ _ _ _ Hl H)|].
    rewrite (load_after_write _ _ _ _ _ Hl). now rewrite (right_id_L ∅ (∪)).
  - unfold load_json_file. now rewrite Hlost.
  - now apply append_unopenable.
Qed.

(** X10: A file whose content is valid JSON but not an object (an array, a
    number, a string, ...) makes the append raise [AttributeError]; no
    file is written. *)
Theorem append_to_non_object_raises (new_dict : gmap string json)
    (path file : string) (fs : gmap string json) (v : json) :
  locate path = Ok file ->
  fs !! file = Some v ->
  (forall d, v <> JObj d) ->
  append_dict_to_json_file locate new_dict path fs = Raise AttributeError.
Proof. apply append_non_object. Qed.

(** X11: Appending the same dictionary a second time changes nothing. *)
Theorem append_twice_same (new_dict : gmap string json) (path : string)
    (fs fs1 : gmap string json) :
  append_dict_to_json_file locate new_dict path fs = Ok fs1 ->
  append_dict_to_json_file locate new_dict path fs1 = Ok fs1.
Proof.
  intros H. apply append_cases in H as (file & d & Hl & _ & ->).
  rewrite (append_object _ _ _ _ _ _ Hl (lookup_insert_eq _ _ _)).
  rewrite insert_insert_eq. do 3 f_equal.
  now rewrite (assoc_L (∪)), (idemp_L (∪)).
Qed.

(** X12: Two appends in a row are one append of the merged dictionary, in which
    the later keys win. *)
Theorem append_then_append (d1 d2 : gmap string json) (path : string)
    (fs fs1 : gmap string json) :
  append_dict_to_json_file locate d1 path fs = Ok fs1 ->
  append_dict_to_json_file locate d2 path fs1
  = append_dict_to_json_file locate (d2 ∪ d1) path fs.
Proof.
  intros H. apply append_cases in H as (file & d & Hl & Hd & ->).
  rewrite (append_object _ _ _ _ _ _ Hl (lookup_insert_eq _ _ _)).
  rewrite insert_insert_eq, (assoc_L (∪)).
  destruct Hd as [[Hn ->]|Hs].
  - now rewrite (append_fresh _ _ _ _ _ Hl Hn).
  - now rewrite (append_object _ _ _ _ _ _ Hl Hs).
Qed.

(** X13: Writing to a path that can be opened replaces whatever its file
    held; every spelling of the same file then reads the new dictionary,
    every path that leads elsewhere reads what it read before, and an
    append that follows is one write of the merged dictionary.  Writing
    to a path that cannot be opened raises the operating system's error
    and changes nothing. *)
Theorem write_then_append (d new_dict : gmap string json)
    (path file alias other lost : string) (fs : gmap string json)
    (e : exn) :
  locate path = Ok file ->
  locate alias = Ok file ->
  locate other <> Ok file ->
  locate lost = Raise e ->
  (exists fs1,
      write_json_file locate d path fs = Ok fs1 /\
      load_json_file locate alias fs1 = Ok (JObj d) /\
      load_json_file locate other fs1 = load_json_file locate other fs /\
      write_json_file locate new_dict path fs1
      = write_json_file locate new_dict path fs /\
      append_dict_to_json_file locate new_dict path fs1
      = write_json_file locate (new_dict ∪ d) path fs) /\
  write_json_file locate d lost fs = Raise e.
Proof.
  intros Hl Ha Ho Hlost. unfold write_json_file, dump_to. split.
  - rewrite Hl. eexists. split; [reflexivity|]. split; [|split; [|split]].
    + now apply load_after_write.
    + unfold load_json_file. destruct (locate other) as [file'|e'];
        [|reflexivity].
      rewrite lookup_insert_ne by congruence. reflexivity.
    + now rewrite insert_insert_eq.
    + rewrite (append_object _ _ _ _ _ _ Hl (lookup_insert_eq _ _ _)).
      now rewrite insert_insert_eq.
  - now rewrite Hlost.
Qed.
End Facts.

Lemma missing_file_load_and_append_witness :
  work_dir "run.json" = Ok "/work/run.json" /\
  (∅ : gmap string json) !! "/work/run.json" = None /\
  work_dir "nodir/run.json" = Raise FileNotFoundError /\
  load_json_file work_dir "run.json" ∅ = Raise FileNotFoundError /\
  (exists fs1,
      append_dict_to_json_file work_dir {["acc" := JNum 1]} "run.json" ∅
      = Ok fs1 /\
      load_json_file work_dir "run.json" fs1
      = Ok (JObj {["acc" := JNum 1]})) /\
  load_json_file work_dir "nodir/run.json" ∅ = Raise FileNotFoundError /\
  append_dict_to_json_file work_dir {["acc" := JNum 1]} "nodir/run.json" ∅
  = Raise FileNotFoundError.
Proof.
  assert (Hl : work_dir "run.json" = Ok "/work/run.json") by reflexivity.
  assert (H : (∅ : gmap string json) !! "/work/run.json" = None)
    by reflexivity.
  assert (Hlost : work_dir "nodir/run.json" = Raise FileNotFoundError)
    by reflexivity.
  exact (conj Hl (conj H (conj Hlost
    (missing_file_load_and_append work_dir _ "run.json" _ "nodir/run.json"
       ∅ Hl H Hlost)))).
Defined.

Lemma append_to_non_object_raises_witness :
  let fs : gmap string json :=
    {["/work/runs.json" := JArr [JNum 1; JNum 2]]} in
  work_dir "runs.json" = Ok "/work/runs.json" /\
  fs !! "/work/runs.json" = Some (JArr [JNum 1; JNum 2]) /\
  (forall d, JArr [JNum 1; JNum 2] <> JObj d) /\
  append_dict_to_json_file work_dir {["acc" := JNum 1]} "runs.json" fs
  = Raise AttributeError.
Proof.
  intros fs.
  assert (Hl : work_dir "runs.json" = Ok "/work/runs.json") by reflexivity.
  assert (H : fs !! "/work/runs.json" = Some (JArr [JNum 1; JNum 2]))
    by (vm_compute; reflexivity).
  assert (Hno : forall d, JArr [JNum 1; JNum 2] <> JObj d)
    by (intros d; discriminate).
  exact (conj Hl (conj H (conj Hno
    (append_to_non_object_raises work_dir _ _ _ fs _ Hl H Hno)))).
Defined.

Lemma append_twice_same_witness :
  let fs1 : gmap string json :=
    {["/work/run.json" := JObj {["acc" := JNum 1]}]} in
  append_dict_to_json_file work_dir {["acc" := JNum 1]} "run.json" ∅
  = Ok fs1 /\
  append_dict_to_json_file work_dir {["acc" := JNum 1]} "run.json" fs1
  = Ok fs1.
Proof.
  intros fs1.
  assert (H : append_dict_to_json_file work_dir {["acc" := JNum 1]}
                "run.json" ∅ = Ok fs1) by (vm_compute; reflexivity).
  exact (conj H (append_twice_same work_dir _ _ _ _ H)).
Defined.

Lemma append_then_append_witness :
  let fs1 : gmap string json :=
    {["/work/run.json" := JObj {["acc" := JNum 1]}]} in
  append_dict_to_json_file work_dir {["acc" := JNum 1]} "run.json" ∅
  = Ok fs1 /\
  append_dict_to_json_file work_dir {["loss" := JNum 2]} "run.json" fs1
  = append_dict_to_json_file work_dir
      ({["loss" := JNum 2]} ∪ {["acc" := JNum 1]}) "run.json" ∅.
Proof.
  intros fs1.
  assert (H : append_dict_to_json_file work_dir {["acc" := JNum 1]}
                "run.json" ∅ = Ok fs1) by (vm_compute; reflexivity).
  exact (conj H (append_then_append work_dir _ {["loss" := JNum 2]} _ _ _ H)).
Defined.

Lemma write_then_append_witness :
  work_dir "a.json" = Ok "/work/a.json" /\
  work_dir "./a.json" = Ok "/work/a.json" /\
  work_dir "b.json" <> Ok "/work/a.json" /\
  work_dir "out/a.json" = Raise FileNotFoundError /\
  (exists fs1,
      write_json_file work_dir {["loss" := JNum 2]} "a.json" ∅ = Ok fs1 /\
      load_json_file work_dir "./a.json" fs1
      = Ok (JObj {["loss" := JNum 2]}) /\
      append_dict_to_json_file work_dir {["acc" := JNum 1]} "a.json" fs1
      = write_json_file work_dir
          ({["acc" := JNum 1]} ∪ {["loss" := JNum 2]}) "a.json" ∅) /\
  write_json_file work_dir {["loss" := JNum 2]} "out/a.json" ∅
  = Raise FileNotFoundError.
Proof.
  assert (Hl : work_dir "a.json" = Ok "/work/a.json") by reflexivity.
  assert (Ha : work_dir "./a.json" = Ok "/work/a.json") by reflexivity.
  assert (Ho : work_dir "b.json" <> Ok "/work/a.json")
    by (vm_compute; discriminate).
  assert (Hlost : work_dir "out/a.json" = Raise FileNotFoundError)
    by reflexivity.
  destruct (write_then_append work_dir {["loss" := JNum 2]}
              {["acc" := JNum 1]} "a.json" _ "./a.json" "b.json"
              "out/a.json" ∅ _ Hl Ha Ho Hlost)
    as [(fs1 & Hw & Hr & _ & _ & Happ) Hraise].
  repeat (split; [assumption|]).
  split; [exists fs1; auto | exact Hraise].
Defined.

End JsonFileProps.

Module SeedingMoreProps.
Import Seeding SeedingProps.
#[local] Open Scope Z_scope.

(** X14: Without a worker id the function cannot raise, whatever torch's
    initial seed is: both sources get the same seed, which lies in
    [0, 2^32), torch's own seed is left alone and [None] is returned. *)
Theorem worker_fallback_always_seeds (st : RandomState) :
  exists st',
    set_seed_for_worker None st = Some (None, st') /\
    numpy_seed st' = python_seed st' /\
    0 <= numpy_seed st' < 2 ^ 32 /\
    torch_initial_seed st' = torch_initial_seed st.
Proof.
  eexists. split; [apply set_seed_for_worker_none|]. cbn.
  split; [reflexivity|]. split; [|reflexivity].
  apply Z.mod_pos_bound. reflexivity.
Qed.

(** X15: With a worker id the function raises exactly when the id is negative
    or at least 2^32, the seeds NumPy rejects; in every other case it
    returns the id and has seeded both sources with it. *)
Theorem worker_id_out_of_range_iff (worker_id : Z) (st : RandomState) :
  (set_seed_for_worker (Some worker_id) st = None
   <-> worker_id < 0 \/ 2 ^ 32 <= worker_id) /\
  (set_seed_for_worker (Some worker_id) st = None \/
   set_seed_for_worker (Some worker_id) st
   = Some (Some worker_id,
           {| numpy_seed := worker_id; python_seed := worker_id;
              torch_initial_seed := torch_initial_seed st |})).
Proof.
  unfold set_seed_for_worker, np_random_seed.
  destruct (Z.leb_spec 0 worker_id), (Z.ltb_spec worker_id (2 ^ 32)); cbn.
  - split; [split; [discriminate | lia] | right; reflexivity].
  - split; [split; [intros _; lia | reflexivity] | left; reflexivity].
  - split; [split; [intros _; lia | reflexivity] | left; reflexivity].
  - split; [split; [intros _; lia | reflexivity] | left; reflexivity].
Qed.

(** X16: After [set_seed_for_all] has succeeded all three sources hold the
    seed, and the worker fallback that follows seeds NumPy and [random]
    with that same seed again: the state does not change. *)
Theorem seed_all_then_worker_fallback (seed : Z) (st st1 : RandomState) :
  set_seed_for_all seed st = Some st1 ->
  st1 = {| numpy_seed := seed; python_seed := seed;
           torch_initial_seed := seed |} /\
  set_seed_for_worker None st1 = Some (None, st1).
Proof.
  intros H.
  assert (Hr : 0 <= seed < 2 ^ 32 /\
               st1 = {| numpy_seed := seed; python_seed := seed;
                        torch_initial_seed := seed |}).
  { revert H. unfold set_seed_for_all, np_random_seed.
    destruct (Z.leb_spec 0 seed), (Z.ltb_spec seed (2 ^ 32)); cbn;
      try discriminate.
    intros [= <-]. split; [lia | reflexivity]. }
  destruct Hr as [Hr ->]. split; [reflexivity|].
  rewrite set_seed_for_worker_none. cbn.
  rewrite Z.mod_small by lia. reflexivity.
Qed.

(** [set_seed_for_all] raises exactly on the seeds NumPy rejects. *)
Theorem seed_all_raises_iff (seed : Z) (st : RandomState) :
  set_seed_for_all seed st = None <-> seed < 0 \/ 2 ^ 32 <= seed.
Proof.
  unfold set_seed_for_all, np_random_seed.
  destruct (Z.leb_spec 0 seed), (Z.ltb_spec seed (2 ^ 32)); cbn;
    split; try discriminate; intros; try lia; reflexivity.
Qed.

Lemma seed_all_then_worker_fallback_witness :
  let st := {| numpy_seed := 1; python_seed := 2; torch_initial_seed := 3 |} in
  let st1 := {| numpy_seed := 42; python_seed := 42;
                torch_initial_seed := 42 |} in
  set_seed_for_all 42 st = Some st1 /\
  set_seed_for_worker None st1 = Some (None, st1).
Proof.
  intros st st1.
  assert (H : set_seed_for_all 42 st = Some st1) by reflexivity.
  exact (conj H (proj2 (seed_all_then_worker_fallback 42 st st1 H))).
Defined.

End SeedingMoreProps.

Module AugmentMoreProps.
Import Explain Augment.
#[local] Open Scope string_scope.

(** X17: The validation pipeline is resize, centre crop, tensor conversion and
    normalization, and depends only on the crop size, the interpolation
    and the resize size: two configurations that agree on these three get
    the same validation pipeline, whatever their augmentation type, flip
    setting and magnitude bins. *)
Theorem val_pipeline_ignores_augmentation (args args' : Args) :
  crop_size args = crop_size args' ->
  interpolation args = interpolation args' ->
  val_resize args = val_resize args' ->
  lookup_key "val" (get_data_augmentation args)
  = lookup_key "val" (get_data_augmentation args') /\
  lookup_key "val" (get_data_augmentation args)
  = Some (Compose [Resize (val_resize args) (interpolation args);
                   CenterCrop (crop_size args);
                   ToTensor;
                   Normalize IMAGENET_DEFAULT_MEAN IMAGENET_DEFAULT_STD]).
Proof.
  intros Hc Hi Hv. unfold get_data_augmentation. cbn.
  rewrite Hc, Hi, Hv. split; reflexivity.
Qed.

(** X18: Whatever the configuration, the train pipeline begins with the random
    resized crop and the random flip and ends with tensor conversion and
    normalization; between them stands at most one step, and none exactly
    when the augmentation type is not "trivial", "augmix" or "rand". *)
Theorem train_pipeline_shape (args : Args) :
  exists middle,
    lookup_key "train" (get_data_augmentation args)
    = Some (Compose
              ([RandomResizedCrop (crop_size args) (interpolation args);
                RandomHorizontalFlip (hflip args)]
               ++ middle
               ++ [ToTensor;
                   Normalize IMAGENET_DEFAULT_MEAN IMAGENET_DEFAULT_STD])%list)
    /\ (length middle <= 1)%nat
    /\ (middle = []
        <-> aug_type args <> "trivial" /\ aug_type args <> "augmix"
            /\ aug_type args <> "rand").
Proof.
  unfold get_data_augmentation. cbn.
  destruct (String.eqb_spec (aug_type args) "trivial") as [Ht|Ht];
    [|destruct (String.eqb_spec (aug_type args) "augmix") as [Ha|Ha];
      [|destruct (String.eqb_spec (aug_type args) "rand") as [Hr|Hr]]];
    eexists; (split; [reflexivity|]); (split; [cbn; lia|]).
  - split; [discriminate | intros (H & _ & _); contradiction].
  - split; [discriminate | intros (_ & H & _); contradiction].
  - split; [discriminate | intros (_ & _ & H); contradiction].
  - split; auto.
Qed.

Lemma val_pipeline_ignores_augmentation_witness :
  let args := {| crop_size := 224; interpolation := BICUBIC; hflip := true;
                 aug_type := "augmix"; mag_bins := 3; val_resize := 256 |} in
  let args' := {| crop_size := 224; interpolation := BICUBIC; hflip := false;
                  aug_type := "rand"; mag_bins := 31; val_resize := 256 |} in
  crop_size args = crop_size args' /\
  interpolation args = interpolation args' /\
  val_resize args = val_resize args' /\
  lookup_key "val" (get_data_augmentation args)
  = lookup_key "val" (get_data_augmentation args').
Proof.
  intros args args'.
  assert (Hc : crop_size args = crop_size args') by reflexivity.
  assert (Hi : interpolation args = interpolation args') by reflexivity.
  assert (Hv : val_resize args = val_resize args') by reflexivity.
  exact (conj Hc (conj Hi (conj Hv
    (proj1 (val_pipeline_ignores_augmentation args args' Hc Hi Hv))))).
Defined.

End AugmentMoreProps.

Module FactoryProps.
Import Optim OptimProps Views.
#[local] Open Scope string_scope.

(** X19: [get_optimizer] returns [None] exactly for a name other than
    "sgd" and "adamw".  For these two names it raises [ValueError] exactly
    when the parameter list is empty or the learning rate or the weight
    decay is negative, and the optimizer it returns otherwise is built
    over the given parameters with the learning rate and the weight decay
    of the configuration. *)
Theorem get_optimizer_returned {P : Type} (args : Args) (params : list P) :
  (get_optimizer args params = Ok None
   <-> opt_name args <> "sgd" /\ opt_name args <> "adamw") /\
  (get_optimizer args params = Raise ValueError
   <-> (opt_name args = "sgd" \/ opt_name args = "adamw") /\
       (params = [] \/ (lr args < 0)%Q \/ (wd args < 0)%Q)) /\
  (forall optimizer,
      get_optimizer args params = Ok (Some optimizer) ->
      (opt_name args = "sgd" \/ opt_name args = "adamw") /\
      params_of optimizer = params /\
      initial_lr optimizer = lr args /\
      weight_decay_of optimizer = wd args /\
      params <> [] /\ (0 <= lr args)%Q /\ (0 <= wd args)%Q).
Proof.
  assert (Hmom : ~ (0.9 < 0)%Q) by (intros H; discriminate H).
  unfold get_optimizer.
  destruct (String.eqb_spec (opt_name args) "sgd") as [Hs|Hs];
    [|destruct (String.eqb_spec (opt_name args) "adamw") as [Ha|Ha]].
  - destruct (new_SGD_cases params (lr args) (wd args) 0.9%Q)
      as [(H & Hp & Hl & _ & Hw)|(H & Hbad)]; rewrite H.
    + split; [split; [discriminate | intros [? _]; contradiction]|].
      split.
      * split; [discriminate|]. intros (_ & [->|[Hb|Hb]]);
          [contradiction | now apply Qlt_not_le in Hb
                         | now apply Qlt_not_le in Hb].
      * intros o [= <-]. cbn. repeat split; auto.
    + split; [split; [discriminate | intros [? _]; contradiction]|].
      split; [|discriminate].
      split; [|reflexivity]. intros _. split; [auto|].
      destruct Hbad as [Hb|[Hb|[Hb|Hb]]]; auto. contradiction.
  - destruct (new_AdamW_cases params (lr args) (wd args))
      as [(H & Hp & Hl & Hw)|(H & Hbad)]; rewrite H.
    + split; [split; [discriminate | intros [_ ?]; contradiction]|].
      split.
      * split; [discriminate|]. intros (_ & [->|[Hb|Hb]]);
          [contradiction | now apply Qlt_not_le in Hb
                         | now apply Qlt_not_le in Hb].
      * intros o [= <-]. cbn. repeat split; auto.
    + split; [split; [discriminate | intros [_ ?]; contradiction]|].
      split; [|discriminate].
      split; [|reflexivity]. intros _. split; auto.
  - split; [split; [auto | reflexivity]|].
    split; [|discriminate].
    split; [discriminate | intros ([?|?] & _); contradiction].
Qed.

(** X20: [get_lr_scheduler] raises [ValueError] exactly when
    [warmup_decay] is outside (0, 1], whatever the name; otherwise it
    returns [None] exactly for a name other than "step" and "cosine", and
    every scheduler it returns starts at epoch 0 on the optimizer's
    learning rate and has two phases with one milestone between them:
    first the linear warmup from [warmup_decay] over [warmup_epochs]
    epochs, then the main phase, entered at epoch [warmup_epochs]. *)
Theorem get_lr_scheduler_returned {P : Type} (args : Args)
    (optimizer : Optimizer P) :
  (get_lr_scheduler args optimizer = Raise ValueError
   <-> (warmup_decay args <= 0)%Q \/ (1 < warmup_decay args)%Q) /\
  (get_lr_scheduler args optimizer = Ok None
   <-> (0 < warmup_decay args)%Q /\ (warmup_decay args <= 1)%Q /\
       sched_name args <> "step" /\ sched_name args <> "cosine") /\
  (forall s,
      get_lr_scheduler args optimizer = Ok (Some s) ->
      (sched_name args = "step" \/ sched_name args = "cosine") /\
      (0 < warmup_decay args)%Q /\ (warmup_decay args <= 1)%Q /\
      exists main,
        schedulers s
        = [LinearLR (warmup_decay args) (warmup_epochs args); main] /\
        milestones s = [warmup_epochs args] /\
        last_epoch s = 0 /\
        base_lr s = initial_lr optimizer /\
        (main = StepLR (step_size args) (gamma args) \/
         main = CosineAnnealingLR
                  (Z.of_nat (epochs args) - Z.of_nat (warmup_epochs args))
                  (eta_min args))).
Proof.
  unfold get_lr_scheduler.
  destruct (new_LinearLR_cases (warmup_decay args) (warmup_epochs args))
    as [(H & H0 & H1)|(H & Hbad)]; rewrite H.
  - assert (Hgood : ~ ((warmup_decay args <= 0)%Q
                       \/ (1 < warmup_decay args)%Q)).
    { intros [Hb|Hb]; [now apply Qlt_not_le in H0
                      |now apply Qlt_not_le in Hb]. }
    destruct (String.eqb_spec (sched_name args) "step") as [Hs|Hs];
      [|destruct (String.eqb_spec (sched_name args) "cosine") as [Hc|Hc]].
    + split; [split; [discriminate | intros Hb; contradiction]|].
      split; [split; [discriminate | intros (_ & _ & ? & _); contradiction]|].
      intros s [= <-]. repeat split; auto. eexists. cbn.
      repeat split; auto.
    + split; [split; [discriminate | intros Hb; contradiction]|].
      split; [split; [discriminate | intros (_ & _ & _ & ?); contradiction]|].
      intros s [= <-]. repeat split; auto. eexists. cbn.
      repeat split; auto.
    + split; [split; [discriminate | intros Hb; contradiction]|].
      split; [split; [auto | reflexivity]|]. discriminate.
  - split; [split; [auto | reflexivity]|].
    split; [|discriminate].
    split; [discriminate|]. intros (H0 & H1 & _).
    destruct Hbad as [Hb|Hb]; [now apply Qlt_not_le in H0
                              |now apply Qlt_not_le in Hb].
Qed.

Lemma get_optimizer_returned_witness :
  let adamw_args :=
    {| opt_name := "adamw"; lr := 0.001; wd := 0.05; sched_name := "cosine";
       warmup_decay := 0.1; warmup_epochs := 3; step_size := 10;
       gamma := 0.1; epochs := 30; eta_min := 0 |} in
  get_optimizer adamw_args [tt] = Ok (Some (AdamW [tt] 0.001%Q 0.05%Q)) /\
  params_of (AdamW [tt] 0.001%Q 0.05%Q) = [tt] /\
  initial_lr (AdamW [tt] 0.001%Q 0.05%Q) = lr adamw_args /\
  get_optimizer adamw_args ([] : list unit) = Raise ValueError.
Proof.
  intros adamw_args.
  assert (H : get_optimizer adamw_args [tt]
              = Ok (Some (AdamW [tt] 0.001%Q 0.05%Q))) by reflexivity.
  destruct (proj2 (proj2 (get_optimizer_returned adamw_args [tt])) _ H)
    as (_ & Hp & Hl & _).
  split; [exact H|]. split; [exact Hp|]. split; [exact Hl|].
  apply (proj1 (proj2 (get_optimizer_returned adamw_args []))).
  split; [right; reflexivity | left; reflexivity].
Defined.

Lemma get_lr_scheduler_returned_witness :
  let cosine_args :=
    {| opt_name := "adamw"; lr := 0.001; wd := 0.05; sched_name := "cosine";
       warmup_decay := 0.1; warmup_epochs := 3; step_size := 10;
       gamma := 0.1; epochs := 30; eta_min := 0 |} in
  let optimizer := AdamW [tt] 0.001%Q 0.05%Q in
  let s := {| base_lr := 0.001%Q;
              schedulers := [LinearLR 0.1%Q 3; CosineAnnealingLR 27 0%Q];
              milestones := [3]; last_epoch := 0 |} in
  get_lr_scheduler cosine_args optimizer = Ok (Some s) /\
  milestones s = [warmup_epochs cosine_args] /\
  get_lr_scheduler cold_args optimizer = Raise ValueError.
Proof.
  intros cosine_args optimizer s.
  assert (H : get_lr_scheduler cosine_args optimizer = Ok (Some s))
    by reflexivity.
  destruct (proj2 (proj2 (get_lr_scheduler_returned cosine_args optimizer))
              _ H) as (_ & _ & _ & main & _ & Hm & _).
  split; [exact H|]. split; [exact Hm|].
  apply (proj1 (get_lr_scheduler_returned cold_args optimizer)).
  left. vm_compute. discriminate.
Defined.

End FactoryProps.

Module ClassWeightsMoreProps.
Import ClassWeights ClassWeightsProps Views.

Lemma list_max_bound (x : list nat) (i : nat) : In i x -> i <= list_max x.
Proof.
  intros Hin. assert (H : Forall (fun k => k <= list_max x) x)
    by now apply list_max_le.
  rewrite Forall_forall in H. now apply H.
Qed.

Lemma bincount_nth_le (x : list nat) (i : nat) :
  x <> [] -> i <= list_max x ->
  nth_error (bincount x) i = Some (count_occ Nat.eq_dec x i).
Proof.
  intros Hne Hle. unfold bincount. destruct x as [|a x]; [contradiction|].
  rewrite nth_error_map, nth_error_seq.
  replace (i <? S (list_max (a :: x))) with true
    by (symmetry; apply Nat.ltb_lt; lia).
  reflexivity.
Qed.

(** X21: The weight vector has one entry per label value from 0 to the largest
    label that occurs, and none for an empty dataset: its length comes
    from the targets alone and not from the list of class names. *)
Theorem class_weights_length (data_loader : DataLoader) :
  length (get_class_weights data_loader)
  = match targets (dataset data_loader) with
    | [] => 0
    | _ => S (list_max (targets (dataset data_loader)))
    end.
Proof.
  unfold get_class_weights, bincount. rewrite length_map.
  destruct (targets (dataset data_loader)); [reflexivity|].
  now rewrite length_map, length_seq.
Qed.

(** X22: A label below the largest one that has no sample gets the weight
    infinity, the result of NumPy's division by a zero count; the function
    does not raise for it. *)
Theorem class_without_samples_gets_inf (data_loader : DataLoader) (c : nat) :
  c < list_max (targets (dataset data_loader)) ->
  ~ In c (targets (dataset data_loader)) ->
  nth_error (get_class_weights data_loader) c = Some Inf.
Proof.
  intros Hlt Hnot. unfold get_class_weights.
  assert (Hne : targets (dataset data_loader) <> []).
  { intros E. rewrite E in Hlt. simpl in Hlt. lia. }
  rewrite nth_error_map, bincount_nth_le by (assumption || lia).
  apply (count_occ_not_In Nat.eq_dec) in Hnot. rewrite Hnot. cbn.
  unfold true_divide. rewrite Nat.mul_0_r. cbn.
  destruct (targets (dataset data_loader)); [contradiction | reflexivity].
Qed.

(** X23: On a balanced dataset, where the labels are below the number of class
    names and every class has the same positive number of samples, every
    class gets the weight 1 and there is one weight per class. *)
Theorem balanced_classes_weigh_one (data_loader : DataLoader) (n : nat) :
  0 < n ->
  classes (dataset data_loader) <> [] ->
  Forall (fun t => t < length (classes (dataset data_loader)))
    (targets (dataset data_loader)) ->
  (forall c, c < length (classes (dataset data_loader)) ->
             count_occ Nat.eq_dec (targets (dataset data_loader)) c = n) ->
  length (targets (dataset data_loader))
  = length (classes (dataset data_loader)) * n ->
  length (get_class_weights data_loader)
  = length (classes (dataset data_loader)) /\
  Forall (float_eq (Finite 1)) (get_class_weights data_loader).
Proof.
  destruct data_loader as [[tg cl]]; cbn.
  intros Hn Hcl Hlt Hcount Hlen.
  assert (Hk : 0 < length cl) by (destruct cl; [congruence | cbn; lia]).
  assert (Hin : In (length cl - 1) tg).
  { apply (count_occ_In Nat.eq_dec). rewrite Hcount; lia. }
  assert (Hmax : list_max tg = length cl - 1).
  { apply Nat.le_antisymm; [|now apply list_max_bound].
    apply list_max_le. eapply Forall_impl; [|exact Hlt].
    cbn. intros; lia. }
  assert (Hne : tg <> []) by (intros ->; contradiction).
  unfold get_class_weights, bincount; cbn [targets classes dataset].
  destruct tg as [|t tg]; [contradiction|].
  rewrite Hmax. replace (S (length cl - 1)) with (length cl) by lia.
  split; [now rewrite !length_map, length_seq|].
  rewrite map_map. apply Forall_map. apply Forall_forall.
  intros c Hc. apply in_seq in Hc. rewrite Hcount by lia.
  rewrite Hlen. unfold true_divide.
  replace (length cl * n =? 0) with false
    by (symmetry; apply Nat.eqb_neq; nia).
  change (1 == Q_of_nat (length cl * n) / Q_of_nat (length cl * n))%Q.
  field. unfold Q_of_nat, Qeq. cbn. nia.
Qed.

Lemma class_without_samples_gets_inf_witness :
  1 < list_max (targets (dataset loader_gap)) /\
  ~ In 1 (targets (dataset loader_gap)) /\
  nth_error (get_class_weights loader_gap) 1 = Some Inf /\
  length (get_class_weights loader_gap) = 3.
Proof.
  assert (H1 : 1 < list_max (targets (dataset loader_gap)))
    by (vm_compute; lia).
  assert (H2 : ~ In 1 (targets (dataset loader_gap)))
    by (cbn; intros [H|[H|[H|[H|H]]]]; try discriminate; exact H).
  exact (conj H1 (conj H2
    (conj (class_without_samples_gets_inf loader_gap 1 H1 H2) eq_refl))).
Defined.

Lemma balanced_classes_weigh_one_witness :
  0 < 2 /\
  classes (dataset loader_balanced) <> [] /\
  Forall (fun t => t < length (classes (dataset loader_balanced)))
    (targets (dataset loader_balanced)) /\
  (forall c, c < length (classes (dataset loader_balanced)) ->
             count_occ Nat.eq_dec (targets (dataset loader_balanced)) c = 2) /\
  length (targets (dataset loader_balanced))
  = length (classes (dataset loader_balanced)) * 2 /\
  Forall (float_eq (Finite 1)) (get_class_weights loader_balanced).
Proof.
  assert (H0 : 0 < 2) by lia.
  assert (H1 : classes (dataset loader_balanced) <> []) by discriminate.
  assert (H2 : Forall (fun t => t < length (classes (dataset loader_balanced)))
                 (targets (dataset loader_balanced)))
    by (repeat constructor; cbn; lia).
  assert (H3 : forall c, c < length (classes (dataset loader_balanced)) ->
                 count_occ Nat.eq_dec (targets (dataset loader_balanced)) c = 2)
    by (intros [|[|[|c]]] Hc; try reflexivity; cbn in Hc; lia).
  assert (H4 : length (targets (dataset loader_balanced))
               = length (classes (dataset loader_balanced)) * 2)
    by reflexivity.
  exact (conj H0 (conj H1 (conj H2 (conj H3 (conj H4
    (proj2 (balanced_classes_weigh_one loader_balanced 2 H0 H1 H2 H3 H4))))))).
Defined.

End ClassWeightsMoreProps.

Module PathsProps.
Import Paths.
#[local] Open Scope string_scope.

Lemma ascii_compare_trans (a b c : ascii) (o : comparison) :
  Ascii.compare a b = o -> Ascii.compare b c = o -> Ascii.compare a c = o.
Proof.
  unfold Ascii.compare. destruct o; intros H1 H2.
  - apply N.compare_eq_iff in H1, H2. apply N.compare_eq_iff. congruence.
  - apply N.compare_lt_iff in H1, H2. apply N.compare_lt_iff.
    eapply N.lt_trans; eassumption.
  - apply N.compare_gt_iff in H1, H2. apply N.compare_gt_iff.
    eapply N.lt_trans; eassumption.
Qed.

Lemma string_leb_trans (s1 s2 s3 : string) :
  String.leb s1 s2 = true -> String.leb s2 s3 = true ->
  String.leb s1 s3 = true.
Proof.
  unfold String.leb. revert s2 s3.
  induction s1 as [|c1 s1 IH]; intros [|c2 s2] [|c3 s3]; cbn;
    try reflexivity; try discriminate.
  destruct (Ascii.compare c1 c2) eqn:E12, (Ascii.compare c2 c3) eqn:E23;
    try discriminate.
  - rewrite (ascii_compare_trans _ _ _ _ E12 E23). apply IH.
  - apply Ascii.compare_eq_iff in E12. subst. now rewrite E23.
  - apply Ascii.compare_eq_iff in E23. subst. now rewrite E12.
  - now rewrite (ascii_compare_trans _ _ _ _ E12 E23).
Qed.

#[local] Instance string_le_trans : Transitive string_le.
Proof. intros a b c. apply string_leb_trans. Qed.

#[local] Instance string_le_antisym : AntiSymm eq string_le.
Proof. intros a b. apply String.leb_antisym. Qed.

#[local] Instance string_le_total : Total string_le.
Proof. intros a b. apply String.leb_total. Qed.

(** X24: [get_classes] lists [dataset_dir/train], keeps the last component of
    every path and returns these names in increasing order; the result
    does not depend on the order in which the file system lists the
    folders, so the index of a class is stable. *)
Theorem get_classes_sorted_and_stable (glob glob' : string -> list string)
    (dataset_dir : string) :
  Permutation (glob (os_path_join dataset_dir "train/*"))
              (glob' (os_path_join dataset_dir "train/*")) ->
  Sorted string_le (get_classes glob dataset_dir) /\
  Permutation (get_classes glob dataset_dir)
    (map basename (glob (os_path_join dataset_dir "train/*"))) /\
  get_classes glob dataset_dir = get_classes glob' dataset_dir.
Proof.
  intros Hperm. unfold get_classes, sort. split; [|split].
  - apply Sorted_merge_sort. apply _.
  - apply merge_sort_Permutation.
  - apply (Sorted_unique string_le); try apply Sorted_merge_sort; try apply _.
    rewrite !merge_sort_Permutation. now apply Permutation_map.
Qed.

(** X25: The pattern the image sorter lists is "/*" whatever [img_src] is,
    because the absolute second component given to [os.path.join] replaces
    the first: two sorters with different folders find the same classes
    and copy the same files. *)
Theorem image_sorter_lists_root (glob : string -> list string)
    (self self' : CreateImgSubclasses) :
  os_path_join (img_src self) "/*" = "/*" /\
  get_image_classes glob self = get_image_classes glob self' /\
  map fst (copy_img_to_dirs glob self) = map fst (copy_img_to_dirs glob self').
Proof.
  assert (Hj : forall a, os_path_join a "/*" = "/*") by reflexivity.
  assert (Hc : get_image_classes glob self = get_image_classes glob self')
    by (unfold get_image_classes; now rewrite !Hj).
  split; [apply Hj|]. split; [exact Hc|].
  unfold copy_img_to_dirs. rewrite !Hj, Hc.
  induction (glob "/*") as [|file files IH]; [reflexivity|].
  cbn. rewrite !map_app, IH. f_equal.
  now destruct (first_match (get_image_classes glob self') file).
Qed.

Lemma existsb_eqb_In (c : string) (l : list string) :
  existsb (String.eqb c) l = true <-> In c l.
Proof.
  rewrite existsb_exists. split.
  - intros (x & Hx & He). apply String.eqb_eq in He. now subst.
  - intros H. exists c. split; [exact H | apply String.eqb_refl].
Qed.

Lemma dedup_invariant (files : list string) (acc : list string) :
  NoDup acc ->
  let result :=
    fold_left
      (fun file_set file =>
         let cls_name := class_name_of file in
         if existsb (String.eqb cls_name) file_set then file_set
         else (file_set ++ [cls_name])%list)
      files acc in
  NoDup result /\
  forall c, In c result <-> In c acc \/ In c (map class_name_of files).
Proof.
  revert acc. induction files as [|file files IH]; intros acc Hnd; cbn.
  - split; [exact Hnd|]. intros c. tauto.
  - destruct (existsb (String.eqb (class_name_of file)) acc) eqn:E.
    + apply existsb_eqb_In in E.
      destruct (IH acc Hnd) as [Hn Hin]. split; [exact Hn|].
      intros c. rewrite Hin. split; [tauto|].
      intros [H|[H|H]]; auto. subst. auto.
    + assert (Hnot : ~ In (class_name_of file) acc).
      { intros H. apply existsb_eqb_In in H. congruence. }
      assert (Hnd' : NoDup (acc ++ [class_name_of file])%list).
      { apply List.NoDup_app; [exact Hnd | |].
        - constructor; [intros [] | constructor].
        - intros x Hx [<-|[]]. contradiction. }
      destruct (IH _ Hnd') as [Hn Hin]. split; [exact Hn|].
      intros c. rewrite Hin, in_app_iff. cbn. tauto.
Qed.

Lemma letters_only_all_letters (s : string) :
  all_letters (letters_only s) = true.
Proof.
  induction s as [|c s IH]; [reflexivity|]. cbn.
  destruct (is_letter c) eqn:E; [cbn; now rewrite E | exact IH].
Qed.

(** X26: The classes of the image sorter: no name occurs twice, a name is found
    exactly when it is the class name of some listed file (the letters of
    the file name before its first dot), and every name consists of
    letters only, so a file whose stem has no letter yields the empty
    name. *)
Theorem image_classes_distinct_letters (glob : string -> list string)
    (self : CreateImgSubclasses) :
  NoDup (get_image_classes glob self) /\
  (forall c, In c (get_image_classes glob self)
             <-> In c (map class_name_of (glob "/*"))) /\
  Forall (fun c => all_letters c = true) (get_image_classes glob self).
Proof.
  unfold get_image_classes.
  replace (os_path_join (img_src self) "/*") with "/*" by reflexivity.
  destruct (dedup_invariant (glob "/*") [] (NoDup_nil _)) as [Hn Hin].
  split; [exact Hn|]. split.
  - intros c. rewrite Hin. cbn. tauto.
  - apply Forall_forall. intros c Hc. apply Hin in Hc as [[]|Hc].
    apply in_map_iff in Hc as (file & <- & _).
    apply letters_only_all_letters.
Qed.

Lemma first_match_spec (names : list string) (file : string) :
  match first_match names file with
  | Some dir_name =>
      existsb (fun c => contains c file) names = true /\
      exists before after,
        names = (before ++ dir_name :: after)%list /\
        Forall (fun c => contains c file = false) before /\
        contains dir_name file = true
  | None => existsb (fun c => contains c file) names = false
  end.
Proof.
  induction names as [|n names IH]; cbn; [reflexivity|].
  destruct (contains n file) eqn:E; cbn.
  - split; [reflexivity|]. exists [], names. auto.
  - destruct (first_match names file) as [d|].
    + destruct IH as (Hex & before & after & -> & Hb & Hd).
      split; [exact Hex|]. exists (n :: before), after.
      split; [reflexivity|]. split; [constructor; assumption | exact Hd].
    + exact IH.
Qed.

(** X27: The files handed to [shutil.copy] are, in listing order and once
    for each time they are listed, exactly the listed files whose path
    contains some class name; the destination of each is [img_dest]
    joined with the first class name, in class order, that occurs in the
    path. *)
Theorem copies_follow_first_match (glob : string -> list string)
    (self : CreateImgSubclasses) :
  map fst (copy_img_to_dirs glob self)
  = filter (fun file =>
              existsb (fun c => contains c file)
                (get_image_classes glob self))
           (glob "/*") /\
  Forall (fun copy =>
            exists before dir_name after,
              get_image_classes glob self
              = (before ++ dir_name :: after)%list /\
              Forall (fun c => contains c (fst copy) = false) before /\
              contains dir_name (fst copy) = true /\
              snd copy = os_path_join (img_dest self) dir_name)
         (copy_img_to_dirs glob self).
Proof.
  unfold copy_img_to_dirs.
  replace (os_path_join (img_src self) "/*") with "/*" by reflexivity.
  induction (glob "/*") as [|file files [IHs IHf]]; cbn;
    [split; [reflexivity | constructor]|].
  pose proof (first_match_spec (get_image_classes glob self) file) as Hfm.
  destruct (first_match (get_image_classes glob self) file) as [d|]; cbn.
  - destruct Hfm as (Hex & before & after & Hcl & Hb & Hd).
    rewrite Hex. split; [now rewrite IHs|].
    constructor; [|exact IHf]. cbn. exists before, d, after. auto.
  - rewrite Hfm. split; assumption.
Qed.

(** A root directory with two cats, a dog and a folder named by digits:
    three classes, the last one empty, and since the empty name occurs in
    every path the folder is handed to [shutil.copy] too. *)
Example image_sorter_on_root_listing :
  let self := {| img_src := "photos"; img_dest := "out" |} in
  get_image_classes root_listing self = ["cat"; "dog"; ""] /\
  copy_img_to_dirs root_listing self
  = [("/cat.1.jpg", "out/cat"); ("/dog_7.png", "out/dog");
     ("/cat.2.jpg", "out/cat"); ("/2024", "out/")].
Proof. split; vm_compute; reflexivity. Qed.

Lemma get_classes_sorted_and_stable_witness :
  let listing' := fun pattern => rev (dataset_listing pattern) in
  Permutation (dataset_listing (os_path_join "data" "train/*"))
              (listing' (os_path_join "data" "train/*")) /\
  get_classes dataset_listing "data" = ["cat"; "dog"] /\
  get_classes dataset_listing "data" = get_classes listing' "data".
Proof.
  intros listing'.
  assert (H : Permutation (dataset_listing (os_path_join "data" "train/*"))
                          (listing' (os_path_join "data" "train/*")))
    by (vm_compute; apply perm_swap).
  split; [exact H|]. split; [vm_compute; reflexivity|].
  exact (proj2 (proj2
    (get_classes_sorted_and_stable dataset_listing listing' "data" H))).
Defined.

End PathsProps.

Module NnProps.
Import Nn.
#[local] Open Scope string_scope.

Lemma Module_ind' (P : Module -> Prop) :
  (forall c i p ps ms,
      Forall (fun nc => P (snd nc)) ms -> P (Node c i p ps ms)) ->
  forall m, P m.
Proof.
  intros H. fix IH 1. intros [c i p ps ms]. apply H.
  induction ms as [|nc ms IHms]; constructor; [apply IH | exact IHms].
Qed.

Lemma filter_frozen (ps : list Param) :
  filter requires_grad (map freeze_param ps) = [].
Proof. induction ps as [|q ps IH]; [reflexivity | exact IH]. Qed.

Lemma trainable_node c i p ps ms :
  get_trainable_params (Node c i p ps ms)
  = (filter requires_grad ps
     ++ flat_map (fun nc => get_trainable_params (snd nc)) ms)%list.
Proof.
  unfold get_trainable_params. cbn. rewrite List.filter_app. f_equal.
  induction ms as [|nc ms IH]; [reflexivity|].
  cbn. rewrite List.filter_app. now rewrite IH.
Qed.

Lemma freeze_shapes (m : Module) :
  map param_shape (parameters (freeze_params m))
  = map param_shape (parameters m).
Proof.
  induction m as [c i p ps ms IH] using Module_ind'. cbn.
  rewrite !map_app. f_equal.
  - rewrite map_map. reflexivity.
  - induction ms as [|nc ms IHms]; [reflexivity|].
    inversion IH as [|? ? Hnc Hms]; subst. cbn.
    rewrite !map_app. now rewrite Hnc, IHms.
Qed.

Lemma freeze_trainable (m : Module) :
  get_trainable_params (freeze_params m) = [].
Proof.
  induction m as [c i p ps ms IH] using Module_ind'. cbn [freeze_params].
  rewrite trainable_node, filter_frozen. cbn [app].
  induction ms as [|nc ms IHms]; [reflexivity|].
  inversion IH as [|? ? Hnc Hms]; subst. cbn [map flat_map snd fst].
  now rewrite Hnc, IHms.
Qed.

(** X28: After [freeze_params] the model has no trainable parameter left, and
    it still has the same parameters in the same order with the same
    shapes; freezing twice is freezing once. *)
Theorem freeze_leaves_nothing_trainable (model : Module) :
  get_trainable_params (freeze_params model) = [] /\
  map param_shape (parameters (freeze_params model))
  = map param_shape (parameters model) /\
  freeze_params (freeze_params model) = freeze_params model.
Proof.
  split; [apply freeze_trainable|]. split; [apply freeze_shapes|].
  induction model as [c i p ps ms IH] using Module_ind'. cbn. f_equal.
  - rewrite map_map. reflexivity.
  - rewrite map_map. cbn. induction ms as [|nc ms IHms]; [reflexivity|].
    inversion IH as [|? ? Hnc Hms]; subst. cbn. now rewrite Hnc, IHms.
Qed.

Lemma lookup_freeze (name : string) (ms : list (string * Module)) :
  lookup_module name (map (fun nc => (fst nc, freeze_params (snd nc))) ms)
  = option_map freeze_params (lookup_module name ms).
Proof.
  induction ms as [|[n c] ms IH]; [reflexivity|]. cbn.
  destruct (String.eqb n name); [reflexivity | exact IH].
Qed.

Lemma getattr_freeze (m : Module) (name : string) :
  getattr (freeze_params m) name = option_map freeze_params (getattr m name).
Proof. destruct m. cbn. apply lookup_freeze. Qed.

Lemma in_features_freeze (m : Module) :
  in_features_of (freeze_params m) = in_features_of m.
Proof. now destruct m. Qed.

Lemma getattr_setattr_same (m : Module) (name : string) (v : Module) :
  getattr (setattr m name v) name = Some v.
Proof.
  destruct m as [c i p ps ms]. cbn.
  induction ms as [|[n c'] ms IH]; cbn.
  - now rewrite String.eqb_refl.
  - destruct (String.eqb n name) eqn:E; cbn; rewrite E; [reflexivity | exact IH].
Qed.

Lemma getattr_setattr_other (m : Module) (name name' : string) (v : Module) :
  name' <> name ->
  getattr (setattr m name v) name' = getattr m name'.
Proof.
  intros Hne. destruct m as [c i p ps ms]. cbn.
  induction ms as [|[n c'] ms IH]; cbn.
  - apply String.eqb_neq in Hne. rewrite String.eqb_sym. now rewrite Hne.
  - destruct (String.eqb n name) eqn:E; cbn.
    + apply String.eqb_eq in E. subst n.
      assert (E' : String.eqb name name' = false)
        by (apply String.eqb_neq; congruence).
      now rewrite E'.
    + destruct (String.eqb n name'); [reflexivity | exact IH].
Qed.

(** What is trainable after an assignment was trainable before or comes
    with the assigned module. *)
Lemma setattr_trainable_Forall (P : Param -> Prop) (m : Module)
    (name : string) (v : Module) :
  Forall P (get_trainable_params m) ->
  Forall P (get_trainable_params v) ->
  Forall P (get_trainable_params (setattr m name v)).
Proof.
  destruct m as [c i p ps ms]. cbn [setattr].
  rewrite !trainable_node, !Forall_app. intros [Hps Hms] Hv.
  split; [exact Hps|].
  induction ms as [|[n c'] ms IH]; cbn.
  - rewrite app_nil_r. exact Hv.
  - cbn in Hms. apply Forall_app in Hms as [Hc Hrest].
    destruct (String.eqb n name); cbn; apply Forall_app; split; auto.
Qed.

Lemma child_trainable_In (m c : Module) (name : string) (q : Param) :
  getattr m name = Some c ->
  In q (get_trainable_params c) ->
  In q (get_trainable_params m).
Proof.
  destruct m as [cl i p ps ms]. cbn [getattr]. rewrite trainable_node.
  intros Hget Hin. apply in_or_app. right.
  induction ms as [|[n c'] ms IH]; [discriminate|]. cbn in Hget |- *.
  apply in_or_app. destruct (String.eqb n name).
  - injection Hget as ->. now left.
  - right. now apply IH.
Qed.

Lemma Qle_bool_not (x y : Q) : Qle_bool x y = false <-> (y < x)%Q.
Proof.
  split.
  - intros H. apply Qnot_le_lt. intros Hle.
    apply Qle_bool_iff in Hle. congruence.
  - intros H. destruct (Qle_bool x y) eqn:E; [|reflexivity].
    apply Qle_bool_iff in E. now apply Qlt_not_le in H.
Qed.

(** The new head is built for a dropout rate in [0, 1] and for no other;
    when it is built its two parameters, the weight and the bias of the
    linear layer, are trainable. *)
Lemma create_linear_head_cases (num_ftrs num_classes : nat) (dropout : Q) :
  (exists new_head,
      create_linear_head num_ftrs num_classes dropout = Ok new_head /\
      (0 <= dropout)%Q /\ (dropout <= 1)%Q /\
      get_trainable_params new_head
      = [ {| param_shape := [num_classes; num_ftrs]; requires_grad := true |};
          {| param_shape := [num_classes]; requires_grad := true |} ])
  \/
  (create_linear_head num_ftrs num_classes dropout = Raise ValueError /\
   ((dropout < 0)%Q \/ (1 < dropout)%Q)).
Proof.
  unfold create_linear_head, Dropout.
  destruct (Qle_bool 0 dropout) eqn:E0; cbn.
  - destruct (Qle_bool dropout 1) eqn:E1; cbn.
    + left. eexists. split; [reflexivity|].
      split; [now apply Qle_bool_iff|]. split; [now apply Qle_bool_iff|].
      reflexivity.
    + right. split; [reflexivity|]. right. now apply Qle_bool_not.
  - right. split; [reflexivity|]. left. now apply Qle_bool_not.
Qed.

(** X29: What [get_model] returns.  The zoo knew the name and the model had a
    head with [in_features], or a head whose [fc] has it; that head (or
    that [fc]) is now dropout followed by a linear layer from the same
    number of features to [num_classes], and so is [head_dist] if the
    model had one; and every trainable parameter of the result is the
    weight or the bias of such a new layer, the weight of the new head
    being among them. *)
Theorem get_model_trains_only_new_heads
    (create_model : string -> result Module) (model_name : string)
    (num_classes : nat) (dropout : Q) (model' : Module) :
  get_model create_model model_name num_classes dropout = Ok model' ->
  exists model head num_ftrs new_head,
    create_model model_name = Ok model /\
    getattr model "head" = Some head /\
    create_linear_head num_ftrs num_classes dropout = Ok new_head /\
    (in_features_of head = Some num_ftrs /\
     getattr model' "head" = Some new_head
     \/
     in_features_of head = None /\
     (exists fc, getattr head "fc" = Some fc /\
                 in_features_of fc = Some num_ftrs) /\
     exists head', getattr model' "head" = Some head' /\
                   getattr head' "fc" = Some new_head) /\
    (hasattr model' "head_dist" = false \/
     getattr model' "head_dist" = Some new_head) /\
    Forall (fun q => param_shape q = [num_classes; num_ftrs] \/
                     param_shape q = [num_classes])
           (get_trainable_params model') /\
    In {| param_shape := [num_classes; num_ftrs]; requires_grad := true |}
       (get_trainable_params model').
Proof.
  unfold get_model.
  destruct (create_model model_name) as [model|e] eqn:Hzoo; [|discriminate].
  rewrite getattr_freeze.
  destruct (getattr model "head") as [head|] eqn:Hhead; [|discriminate].
  cbn [option_map]. rewrite in_features_freeze.
  assert (Hfrozen : forall (P : Param -> Prop),
            Forall P (get_trainable_params (freeze_params model)))
    by (intros P; rewrite freeze_trainable; constructor).
  assert (Hne : "head" <> "head_dist") by discriminate.
  destruct (in_features_of head) as [f|] eqn:Hf.
  - destruct (create_linear_head_cases f num_classes dropout)
      as [(h & Hh & _ & _ & Hth)|(Hh & _)]; rewrite Hh; [|discriminate].
    assert (Hnew : Forall
              (fun q => param_shape q = [num_classes; f] \/
                        param_shape q = [num_classes])
              (get_trainable_params h))
      by (rewrite Hth; repeat constructor; cbn; auto).
    assert (Hw : In {| param_shape := [num_classes; f];
                       requires_grad := true |}
                    (get_trainable_params h))
      by (rewrite Hth; left; reflexivity).
    set (m1 := setattr (freeze_params model) "head" h).
    assert (H1 : getattr m1 "head" = Some h) by apply getattr_setattr_same.
    destruct (hasattr m1 "head_dist") eqn:Hd; intros [= <-];
      exists model, head, f, h; (split; [reflexivity|]);
      (split; [exact Hhead|]); (split; [exact Hh|]).
    + split; [left; split; [exact Hf|];
              now rewrite getattr_setattr_other|].
      split; [right; apply getattr_setattr_same|].
      split; [apply setattr_trainable_Forall;
              [apply setattr_trainable_Forall|]; auto|].
      eapply child_trainable_In; [apply getattr_setattr_same | exact Hw].
    + split; [left; split; [exact Hf | exact H1]|].
      split; [left; exact Hd|].
      split; [apply setattr_trainable_Forall; auto|].
      eapply child_trainable_In; [exact H1 | exact Hw].
  - rewrite getattr_freeze.
    destruct (getattr head "fc") as [fc|] eqn:Hfc; [|discriminate].
    cbn [option_map]. rewrite in_features_freeze.
    destruct (in_features_of fc) as [f|] eqn:Hffc; [|discriminate].
    destruct (create_linear_head_cases f num_classes dropout)
      as [(h & Hh & _ & _ & Hth)|(Hh & _)]; rewrite Hh; [|discriminate].
    assert (Hnew : Forall
              (fun q => param_shape q = [num_classes; f] \/
                        param_shape q = [num_classes])
              (get_trainable_params h))
      by (rewrite Hth; repeat constructor; cbn; auto).
    assert (Hw : In {| param_shape := [num_classes; f];
                       requires_grad := true |}
                    (get_trainable_params h))
      by (rewrite Hth; left; reflexivity).
    set (h1 := setattr (freeze_params head) "fc" h).
    set (m1 := setattr (freeze_params model) "head" h1).
    assert (Hh1 : getattr h1 "fc" = Some h) by apply getattr_setattr_same.
    assert (H1 : getattr m1 "head" = Some h1) by apply getattr_setattr_same.
    assert (Hh1F : Forall
              (fun q => param_shape q = [num_classes; f] \/
                        param_shape q = [num_classes])
              (get_trainable_params h1)).
    { apply setattr_trainable_Forall; [|exact Hnew].
      rewrite freeze_trainable. constructor. }
    assert (Hh1w : In {| param_shape := [num_classes; f];
                         requires_grad := true |}
                      (get_trainable_params h1))
      by (eapply child_trainable_In; [exact Hh1 | exact Hw]).
    destruct (hasattr m1 "head_dist") eqn:Hd; intros [= <-];
      exists model, head, f, h; (split; [reflexivity|]);
      (split; [exact Hhead|]); (split; [exact Hh|]).
    + split.
      { right. split; [exact Hf|]. split; [exists fc; auto|].
        exists h1. split; [now rewrite getattr_setattr_other | exact Hh1]. }
      split; [right; apply getattr_setattr_same|].
      split; [apply setattr_trainable_Forall;
              [apply setattr_trainable_Forall|]; auto|].
      eapply child_trainable_In;
        [rewrite getattr_setattr_other by exact Hne; exact H1 | exact Hh1w].
    + split.
      { right. split; [exact Hf|]. split; [exists fc; auto|].
        exists h1. auto. }
      split; [left; exact Hd|].
      split; [apply setattr_trainable_Forall; auto|].
      eapply child_trainable_In; [exact H1 | exact Hh1w].
Qed.

(** X30: [get_model] raises exactly in these cases: the zoo raises, and
    its exception is passed on; the model has neither of the two head
    layouts, and the attribute access raises [AttributeError]; or the
    layout is fine and the dropout rate is outside [0, 1], and the
    construction of the new head raises [ValueError]. *)
Theorem get_model_raises_iff (create_model : string -> result Module)
    (model_name : string) (num_classes : nat) (dropout : Q) (e : exn) :
  get_model create_model model_name num_classes dropout = Raise e
  <-> create_model model_name = Raise e \/
      exists model,
        create_model model_name = Ok model /\
        (supported_layout model = false /\ e = AttributeError \/
         supported_layout model = true /\
         ((dropout < 0)%Q \/ (1 < dropout)%Q) /\ e = ValueError).
Proof.
  assert (Hrate : forall f h,
            create_linear_head f num_classes dropout = Ok h ->
            ~ ((dropout < 0)%Q \/ (1 < dropout)%Q)).
  { intros f h Hh.
    destruct (create_linear_head_cases f num_classes dropout)
      as [(h' & _ & H0 & H1 & _)|(Hr & _)]; [|congruence].
    intros [Hb|Hb]; now apply Qlt_not_le in Hb. }
  unfold get_model, supported_layout.
  destruct (create_model model_name) as [model|e'] eqn:Hzoo.
  - rewrite getattr_freeze.
    destruct (getattr model "head") as [head|] eqn:Hhead; cbn [option_map].
    + rewrite in_features_freeze, getattr_freeze.
      destruct (in_features_of head) as [f|] eqn:Hf.
      * destruct (create_linear_head f num_classes dropout) as [h|e0] eqn:Hh.
        -- split; [destruct (hasattr _ "head_dist"); discriminate|].
           intros [H|(m & [= <-] & [(H & _)|(_ & Hb & _)])];
             [discriminate | | ].
           ++ rewrite Hhead, Hf in H. discriminate.
           ++ now apply (Hrate _ _ Hh) in Hb.
        -- destruct (create_linear_head_cases f num_classes dropout)
             as [(h' & Hr & _)|(Hr & Hb)]; [congruence|].
           assert (e0 = ValueError) by congruence. subst e0. split.
           ++ intros [= <-]. right. exists model. split; [reflexivity|].
              right. rewrite Hhead, Hf. auto.
           ++ intros [H|(m & [= <-] & [(H & _)|(_ & _ & ->)])];
                [discriminate | | reflexivity].
              rewrite Hhead, Hf in H. discriminate.
      * destruct (getattr head "fc") as [fc|] eqn:Hfc; cbn [option_map].
        -- rewrite in_features_freeze.
           destruct (in_features_of fc) as [f|] eqn:Hffc.
           ++ destruct (create_linear_head f num_classes dropout)
                as [h|e0] eqn:Hh.
              ** split; [destruct (hasattr _ "head_dist"); discriminate|].
                 intros [H|(m & [= <-] & [(H & _)|(_ & Hb & _)])];
                   [discriminate | | ].
                 --- rewrite Hhead, Hf, Hfc, Hffc in H. discriminate.
                 --- now apply (Hrate _ _ Hh) in Hb.
              ** destruct (create_linear_head_cases f num_classes dropout)
                   as [(h' & Hr & _)|(Hr & Hb)]; [congruence|].
                 assert (e0 = ValueError) by congruence. subst e0. split.
                 --- intros [= <-]. right. exists model.
                     split; [reflexivity|].
                     right. rewrite Hhead, Hf, Hfc, Hffc. auto.
                 --- intros [H|(m & [= <-] & [(H & _)|(_ & _ & ->)])];
                       [discriminate | | reflexivity].
                     rewrite Hhead, Hf, Hfc, Hffc in H. discriminate.
           ++ split.
              ** intros [= <-]. right. exists model. split; [reflexivity|].
                 left. now rewrite Hhead, Hf, Hfc, Hffc.
              ** intros [H|(m & [= <-] & [(_ & ->)|(H & _)])];
                   [discriminate | reflexivity | ].
                 rewrite Hhead, Hf, Hfc, Hffc in H. discriminate.
        -- split.
           ++ intros [= <-]. right. exists model. split; [reflexivity|].
              left. now rewrite Hhead, Hf, Hfc.
           ++ intros [H|(m & [= <-] & [(_ & ->)|(H & _)])];
                [discriminate | reflexivity | ].
              rewrite Hhead, Hf, Hfc in H. discriminate.
    + split.
      * intros [= <-]. right. exists model. split; [reflexivity|].
        left. now rewrite Hhead.
      * intros [H|(m & [= <-] & [(_ & ->)|(H & _)])];
          [discriminate | reflexivity | ].
        rewrite Hhead in H. discriminate.
  - split.
    + intros [= <-]. now left.
    + intros [[= <-]|(m & H & _)]; [reflexivity | discriminate].
Qed.

Lemma get_model_trains_only_new_heads_witness :
  exists model' num_ftrs,
    get_model tiny_zoo "tiny" 10 0.2 = Ok model' /\
    Forall (fun q => param_shape q = [10; num_ftrs] \/ param_shape q = [10])
           (get_trainable_params model').
Proof.
  pose proof (get_model_trains_only_new_heads tiny_zoo "tiny" 10 0.2) as H.
  destruct (get_model tiny_zoo "tiny" 10 0.2) as [model'|e] eqn:E;
    [|vm_compute in E; discriminate].
  destruct (H model' eq_refl)
    as (model & head & f & h & _ & _ & _ & _ & _ & HF & _).
  exists model', f. split; [reflexivity | exact HF].
Defined.

(** The two sample backbones: head and distillation head replaced in the
    first, the [fc] inside the head in the second; an unknown name is the
    zoo's error, a model without a head an [AttributeError] and a dropout
    rate of 1.5 a [ValueError]. *)
Example get_model_on_tiny_zoo :
  (exists model',
      get_model tiny_zoo "tiny" 10 0.2 = Ok model' /\
      map param_shape (get_trainable_params model')
      = [[10; 8]; [10]; [10; 8]; [10]] /\
      length (parameters model') = 7) /\
  (exists model',
      get_model tiny_zoo "wrapped" 10 0.2 = Ok model' /\
      map param_shape (get_trainable_params model') = [[10; 8]; [10]]) /\
  get_model tiny_zoo "resnet" 10 0.2 = Raise UnknownModel /\
  get_model (fun _ => Ok (Linear 8 8)) "any" 10 0.2 = Raise AttributeError /\
  get_model tiny_zoo "tiny" 10 1.5 = Raise ValueError.
Proof.
  split; [|split; [|split; [|split]]];
    [eexists; split; [reflexivity|split; reflexivity]
    |eexists; split; reflexivity
    |reflexivity..].
Qed.

End NnProps.
